(** * CompanySection: field masking, validation triggers and geo/transport rules

    A shallow embedding of [src/components/CompanySection.tsx].  The component
    is a render function whose logic lives in the event handlers attached
    to its inputs; the embedding keeps the handlers, the attributes that
    decide whether a handler can fire ([readOnly]) or bound a value
    ([maxLength], [required]), the class names, the error messages and the
    effect on the options of the select, and drops the rest of the markup.

    JavaScript strings are sequences of UTF-16 code units, and the three
    string operations the handlers use ([toUpperCase], [replace] with a global
    one-character pattern, [slice]) are modelled on code units the way
    ECMAScript defines them. *)

From Stdlib Require Import List Bool NArith ZArith Lia String Ascii.
Import ListNotations.

Local Open Scope N_scope.

(* ================================================================== *)
(** ** JavaScript strings *)
(* ================================================================== *)

(** A code unit is a number below 65536; a string is a list of them. *)
Definition codeUnit := N.
Definition jsstring := list codeUnit.

(** Literals: an ASCII literal denotes the string of its character codes. *)
Fixpoint js (s : string) : jsstring :=
  match s with
  | EmptyString => []
  | String a rest => N_of_ascii a :: js rest
  end.

(** JS truthiness of a value of type [string | undefined | null]. *)
Definition truthy (v : option jsstring) : bool :=
  match v with
  | None => false
  | Some [] => false
  | Some (_ :: _) => true
  end.

Definition inRange (lo hi c : N) : bool := (lo <=? c) && (c <=? hi).

(* ------------------------------------------------------------------ *)
(** *** [String.prototype.slice] *)

(** [s.slice(start, end)]: negative indices count from the end, both are
    clamped to [0, length], and an empty span gives the empty string. *)
Definition slice (s : jsstring) (start end_ : Z) : jsstring :=
  let len := Z.of_nat (List.length s) in
  let from := if (start <? 0)%Z then Z.max (len + start) 0 else Z.min start len in
  let to := if (end_ <? 0)%Z then Z.max (len + end_) 0 else Z.min end_ len in
  if (from >=? to)%Z then []
  else firstn (Z.to_nat (to - from)) (skipn (Z.to_nat from) s).

(* ------------------------------------------------------------------ *)
(** *** Regular expressions (the fragment the component uses) *)

(** The three patterns of the component are a single character class or the
    escape [\D], with the [g] flag and no [i] or [u] flag: they match one code
    unit, case-sensitively. *)
Inductive ClassAtom : Type :=
  | ClassRange (lo hi : N)      (* a-z *)
  | ClassChar (c : N)           (* ' or \- *)
  | ClassEscape_s.              (* \s *)

Inductive Pattern : Type :=
  | CharacterClass (invert : bool) (atoms : list ClassAtom)
  | Escape_D.

(** [\s]: the WhiteSpace and LineTerminator code points of ECMAScript. *)
Definition isWhiteSpace (c : N) : bool :=
  inRange 9 13 c                    (* TAB LF VT FF CR *)
  || (c =? 32)                      (* SPACE *)
  || (c =? 160)                     (* U+00A0 NO-BREAK SPACE *)
  || (c =? 5760)                    (* U+1680 *)
  || inRange 8192 8202 c            (* U+2000 .. U+200A *)
  || (c =? 8232) || (c =? 8233)     (* U+2028 U+2029 *)
  || (c =? 8239)                    (* U+202F *)
  || (c =? 8287)                    (* U+205F *)
  || (c =? 12288)                   (* U+3000 *)
  || (c =? 65279).                  (* U+FEFF *)

Definition isDigit (c : N) : bool := inRange 48 57 c.

Definition atomMatches (a : ClassAtom) (c : N) : bool :=
  match a with
  | ClassRange lo hi => inRange lo hi c
  | ClassChar d => c =? d
  | ClassEscape_s => isWhiteSpace c
  end.

Definition patternMatches (p : Pattern) (c : N) : bool :=
  match p with
  | CharacterClass invert atoms =>
      xorb invert (existsb (fun a => atomMatches a c) atoms)
  | Escape_D => negb (isDigit c)
  end.

(** [s.replace(p, replacement)] for a global one-code-unit pattern: the
    matcher is tried at every index from left to right; a match consumes one
    code unit and is replaced, a failure copies the code unit. *)
Fixpoint replace (p : Pattern) (replacement : jsstring) (s : jsstring) : jsstring :=
  match s with
  | [] => []
  | c :: rest =>
      if patternMatches p c then replacement ++ replace p replacement rest
      else c :: replace p replacement rest
  end.

(** [/[^A-Z0-9]/g] *)
Definition re_notUpperAlnum : Pattern :=
  CharacterClass true [ClassRange 65 90; ClassRange 48 57].

(** [/[^a-zA-Z\s\-']/g] *)
Definition re_notName : Pattern :=
  CharacterClass true
    [ClassRange 97 122; ClassRange 65 90; ClassEscape_s; ClassChar 45; ClassChar 39].

(** [/\D/g] *)
Definition re_notDigit : Pattern := Escape_D.

(* ------------------------------------------------------------------ *)
(** *** [String.prototype.toUpperCase] *)

Definition isLeadSurrogate (c : N) : bool := inRange 55296 56319 c.
Definition isTrailSurrogate (c : N) : bool := inRange 56320 57343 c.

(** [StringToCodePoints]: a lead surrogate followed by a trail surrogate is
    one code point; any other code unit is a code point by itself. *)
Fixpoint StringToCodePoints (s : jsstring) : list N :=
  match s with
  | [] => []
  | a :: t =>
      match t with
      | b :: rest =>
          if isLeadSurrogate a && isTrailSurrogate b
          then ((a - 55296) * 1024 + (b - 56320) + 65536) :: StringToCodePoints rest
          else a :: StringToCodePoints t
      | [] => [a]
      end
  end.

Definition UTF16EncodeCodePoint (cp : N) : jsstring :=
  if cp <=? 65535 then [cp]
  else [(cp - 65536) / 1024 + 55296; (cp - 65536) mod 1024 + 56320].

Definition CodePointsToString (cps : list N) : jsstring :=
  flat_map UTF16EncodeCodePoint cps.

Definition asciiUpper (c : N) : N :=
  if inRange 97 122 c then c - 32 else c.

Section ToUpperCase.

(** The Unicode full uppercase mapping (UnicodeData and SpecialCasing) of
    the code points beyond ASCII belongs to the JavaScript engine, not to
    the repository; it is taken as a parameter.  It may map one code point
    to several (U+00DF to "SS"). *)
Variable unicodeUpper : N -> list N.

Definition toUppercaseCodePoint (cp : N) : list N :=
  if cp <? 128 then [asciiUpper cp] else unicodeUpper cp.

Definition toUpperCase (s : jsstring) : jsstring :=
  CodePointsToString (flat_map toUppercaseCodePoint (StringToCodePoints s)).

End ToUpperCase.

(** An excerpt of the Unicode table, exact on Latin-1 and the identity
    elsewhere, for running the handlers on concrete inputs. *)
Definition latin1Upper (cp : N) : list N :=
  if cp =? 223 then [83; 83]                       (* U+00DF -> SS *)
  else if cp =? 181 then [924]                     (* U+00B5 -> U+039C *)
  else if cp =? 255 then [376]                     (* U+00FF -> U+0178 *)
  else if inRange 224 254 cp && negb (cp =? 247) then [cp - 32]
  else [cp].

(* ================================================================== *)
(** ** The component *)
(* ================================================================== *)

(** The fields of the form that carry a change handler with a value rule. *)
Inductive FieldId : Type :=
  | legalCompanyName | displayName | companyName | subVendor | vendorCode
  | primaryContactName | primaryContactPhone | primaryContactEmail
  | contactPersonName | vendorPhoneNumber | vendorEmailAddress | gstin
  | pincode | address.

Inductive TransportMode : Type := road | air | rail | ship.

(** The [value] attribute of the four [<option>] elements. *)
Definition optionValue (m : TransportMode) : jsstring :=
  match m with
  | road => js "road" | air => js "air" | rail => js "rail" | ship => js "ship"
  end.

(** The inputs of the form. *)
Inductive Element : Type :=
  | Field (f : FieldId)
  | StateInput
  | CityInput
  | TransportModeSelect.

(** What the component reads from its two hooks.  A field of a JS object
    that may be [undefined] or [null] is an [option]. *)
Record UseVendorBasicsReturn : Type := {
  basics : FieldId -> option jsstring;
  errors : FieldId -> option jsstring
}.

Record Geo : Type := {
  geo_pincode : option jsstring;
  geo_state : option jsstring;
  geo_city : option jsstring
}.

Record UsePincodeLookupReturn : Type := {
  geo : Geo;
  isLoading : bool;
  error : option jsstring;
  isManual : bool
}.

Record CompanySectionProps : Type := {
  vendorBasics : UseVendorBasicsReturn;
  pincodeLookup : UsePincodeLookupReturn;
  transportMode : TransportMode
}.

(** The callbacks of the props, as the calls a handler makes, in order. *)
Inductive Call : Type :=
  | setField (f : FieldId) (value : jsstring)
  | validateField (f : FieldId)
  | setPincode (value : jsstring)
  | setState (value : jsstring)
  | setCity (value : jsstring)
  | onTransportModeChange (mode : TransportMode).

Inductive Event : Type :=
  | Change (value : jsstring)      (* e.target.value *)
  | Blur.

Section Component.

Variable unicodeUpper : N -> list N.

(** The value each field's [onChange] computes from [e.target.value]. *)
Definition mask (f : FieldId) (value : jsstring) : jsstring :=
  match f with
  | legalCompanyName => slice value 0 60
  | displayName => slice value 0 30
  | companyName => slice value 0 30
  | subVendor => slice value 0 20
  | vendorCode =>
      slice (replace re_notUpperAlnum [] (toUpperCase unicodeUpper value)) 0 20
  | primaryContactName => slice (replace re_notName [] value) 0 25
  | primaryContactPhone => slice (replace re_notDigit [] value) 0 10
  | primaryContactEmail => value
  | contactPersonName => slice (replace re_notName [] value) 0 30
  | vendorPhoneNumber => slice (replace re_notDigit [] value) 0 10
  | vendorEmailAddress => value
  | gstin =>
      slice (replace re_notUpperAlnum [] (toUpperCase unicodeUpper value)) 0 15
  | pincode => slice (replace re_notDigit [] value) 0 6
  | address => slice value 0 150
  end.

Definition onChange (el : Element) (value : jsstring) : list Call :=
  match el with
  | Field pincode => [setPincode (mask pincode value)]
  | Field f => [setField f (mask f value)]
  | StateInput => [setState value]
  | CityInput => [setCity value]
  | TransportModeSelect => [onTransportModeChange road]
  end.

Definition onBlur (props : CompanySectionProps) (el : Element) : list Call :=
  match el with
  | Field gstin =>
      if truthy (basics (vendorBasics props) gstin) then [validateField gstin]
      else []
  | Field pincode => []
  | Field f => [validateField f]
  | StateInput | CityInput | TransportModeSelect => []
  end.

Definition dispatch (props : CompanySectionProps) (el : Element) (ev : Event)
  : list Call :=
  match ev with
  | Change value => onChange el value
  | Blur => onBlur props el
  end.

(** The [readOnly] attribute: only the state and city inputs carry one. *)
Definition readOnly (props : CompanySectionProps) (el : Element) : bool :=
  match el with
  | StateInput | CityInput =>
      negb (isManual (pincodeLookup props))
      && negb (truthy (error (pincodeLookup props)))
  | Field _ | TransportModeSelect => false
  end.

(** A user edit: the browser fires no change event on a read-only input. *)
Definition userEdit (props : CompanySectionProps) (el : Element)
  (value : jsstring) : option (list Call) :=
  if readOnly props el then None else Some (dispatch props el (Change value)).

End Component.

(* ================================================================== *)
(** ** The rules as the specification words them *)
(* ================================================================== *)

Module Spec.

Inductive CharClass : Type :=
  | AnyChar | UpperAlnum | NameChars | Digits.

Inductive CaseTransform : Type := CaseNone | CaseUpper.

(** The table of per-field rules; [None] is an unbounded length. *)
Definition allowedClass (f : FieldId) : CharClass :=
  match f with
  | vendorCode | gstin => UpperAlnum
  | primaryContactName | contactPersonName => NameChars
  | primaryContactPhone | vendorPhoneNumber | pincode => Digits
  | _ => AnyChar
  end.

Definition caseTransform (f : FieldId) : CaseTransform :=
  match f with
  | vendorCode | gstin => CaseUpper
  | _ => CaseNone
  end.

Definition maxLength (f : FieldId) : option nat :=
  match f with
  | legalCompanyName => Some 60%nat
  | displayName => Some 30%nat
  | companyName => Some 30%nat
  | subVendor => Some 20%nat
  | vendorCode => Some 20%nat
  | primaryContactName => Some 25%nat
  | contactPersonName => Some 30%nat
  | primaryContactPhone => Some 10%nat
  | vendorPhoneNumber => Some 10%nat
  | primaryContactEmail => None
  | vendorEmailAddress => None
  | gstin => Some 15%nat
  | address => Some 150%nat
  | pincode => Some 6%nat
  end.

Definition hasCharClassRule (f : FieldId) : bool :=
  match allowedClass f with
  | AnyChar => false
  | _ => true
  end.

Definition isLetter (c : N) : bool := inRange 65 90 c || inRange 97 122 c.

(** Membership of a code unit in a class: A-Z and 0-9; letters, the space,
    the hyphen and the apostrophe; the digits. *)
Definition inClass (k : CharClass) (c : N) : bool :=
  match k with
  | AnyChar => true
  | UpperAlnum => inRange 65 90 c || inRange 48 57 c
  | NameChars => isLetter c || (c =? 32) || (c =? 45) || (c =? 39)
  | Digits => inRange 48 57 c
  end.

Definition allowed (f : FieldId) (c : N) : bool := inClass (allowedClass f) c.

Definition truncate (n : option nat) (s : jsstring) : jsstring :=
  match n with
  | Some k => firstn k s
  | None => s
  end.

Definition applyCase (unicodeUpper : N -> list N) (t : CaseTransform)
  (s : jsstring) : jsstring :=
  match t with
  | CaseNone => s
  | CaseUpper => toUpperCase unicodeUpper s
  end.

(** Filter by the field's class, then truncate to its length. *)
Definition filterThenTruncate (f : FieldId) (s : jsstring) : jsstring :=
  truncate (maxLength f) (filter (allowed f) s).

(** The order the specification excludes: truncate, then filter. *)
Definition truncateThenFilter (f : FieldId) (s : jsstring) : jsstring :=
  filter (allowed f) (truncate (maxLength f) s).

Definition withinLength (n : option nat) (s : jsstring) : Prop :=
  match n with
  | Some k => (List.length s <= k)%nat
  | None => True
  end.

End Spec.

(** The pattern a field's change handler deletes, and the code units that
    survive it. *)
Definition fieldPattern (f : FieldId) : option Pattern :=
  match f with
  | vendorCode | gstin => Some re_notUpperAlnum
  | primaryContactName | contactPersonName => Some re_notName
  | primaryContactPhone | vendorPhoneNumber | pincode => Some re_notDigit
  | _ => None
  end.

Definition kept (f : FieldId) (c : N) : bool :=
  match fieldPattern f with
  | Some p => negb (patternMatches p c)
  | None => true
  end.

Definition isAscii (c : N) : bool := c <? 128.

Definition isNameField (f : FieldId) : bool :=
  match f with
  | primaryContactName | contactPersonName => true
  | _ => false
  end.

(** Props with manual mode on and no lookup error, and props with a failed
    lookup outside manual mode. *)
Definition propsManualNoError : CompanySectionProps :=
  {| vendorBasics := {| basics := fun _ => Some []; errors := fun _ => None |};
     pincodeLookup :=
       {| geo := {| geo_pincode := Some (js "110001");
                    geo_state := Some (js "Delhi");
                    geo_city := Some (js "New Delhi") |};
          isLoading := false; error := None; isManual := true |};
     transportMode := road |}.

Definition propsLookupFailed : CompanySectionProps :=
  {| vendorBasics := {| basics := fun _ => Some []; errors := fun _ => None |};
     pincodeLookup :=
       {| geo := {| geo_pincode := Some (js "000000");
                    geo_state := None; geo_city := None |};
          isLoading := false; error := Some (js "Invalid pincode");
          isManual := false |};
     transportMode := road |}.

(** White space that is not the space character: what [\s] admits beyond
    the class of the name fields. *)
Definition isOtherWhiteSpace (c : N) : bool := isWhiteSpace c && negb (c =? 32).

(** Sample props for running the blur handlers and the [readOnly] rule. *)
Definition sampleGeo : Geo :=
  {| geo_pincode := Some (js "110001");
     geo_state := Some (js "Delhi");
     geo_city := Some (js "New Delhi") |}.

Definition sampleProps (gstinValue : option jsstring) (manual : bool)
  (geoError : option jsstring) : CompanySectionProps :=
  {| vendorBasics :=
       {| basics := fun f => match f with gstin => gstinValue | _ => Some [] end;
          errors := fun _ => None |};
     pincodeLookup :=
       {| geo := sampleGeo; isLoading := false;
          error := geoError; isManual := manual |};
     transportMode := road |}.

(* ================================================================== *)
(** ** The rest of the component: attributes, class names, the effect *)
(* ================================================================== *)

(** [a === b] on strings. *)
Fixpoint strictEquals (a b : jsstring) : bool :=
  match a, b with
  | [], [] => true
  | x :: a', y :: b' => (x =? y) && strictEquals a' b'
  | _, _ => false
  end.

(** The [maxLength] attribute of each input; the two e-mail inputs, state,
    city and the select carry none. *)
Definition maxLengthAttr (el : Element) : option nat :=
  match el with
  | Field legalCompanyName => Some 60%nat
  | Field displayName => Some 30%nat
  | Field companyName => Some 30%nat
  | Field subVendor => Some 20%nat
  | Field vendorCode => Some 20%nat
  | Field primaryContactName => Some 25%nat
  | Field primaryContactPhone => Some 10%nat
  | Field primaryContactEmail => None
  | Field contactPersonName => Some 30%nat
  | Field vendorPhoneNumber => Some 10%nat
  | Field vendorEmailAddress => None
  | Field gstin => Some 15%nat
  | Field pincode => Some 6%nat
  | Field address => Some 150%nat
  | StateInput | CityInput | TransportModeSelect => None
  end.

(** The [required] attribute: every input but gstin carries it. *)
Definition required (el : Element) : bool :=
  match el with
  | Field gstin => false
  | _ => true
  end.

(** A line break of a template literal followed by its indentation. *)
Definition lineBreak (indent : nat) : jsstring := 10 :: repeat 32 indent.

(** [inputClass(hasError)] *)
Definition inputClass (hasError : bool) : jsstring :=
  js "mt-1 block w-full border rounded-lg shadow-sm px-4 py-3 text-sm text-slate-800 placeholder-slate-400"
  ++ lineBreak 5
  ++ js "focus:outline-none focus:ring-2 focus:border-blue-500 transition-all duration-200 bg-white"
  ++ lineBreak 5
  ++ (if hasError then js "border-red-500 focus:ring-red-500"
      else js "border-slate-300 focus:ring-blue-500").

(** The [className] of each input.  State and city repeat the condition of
    their [readOnly] attribute inside the template. *)
Definition className (props : CompanySectionProps) (el : Element) : jsstring :=
  match el with
  | Field pincode => inputClass (truthy (error (pincodeLookup props)))
  | Field f => inputClass (truthy (errors (vendorBasics props) f))
  | StateInput | CityInput =>
      js "mt-1 block w-full border rounded-lg shadow-sm px-4 py-3 text-sm text-slate-800 placeholder-slate-400"
      ++ lineBreak 23
      ++ js "focus:outline-none focus:ring-2 focus:border-blue-500 transition-all duration-200"
      ++ lineBreak 23
      ++ (if negb (isManual (pincodeLookup props))
             && negb (truthy (error (pincodeLookup props)))
          then js "bg-slate-100 cursor-not-allowed" else js "bg-white")
      ++ lineBreak 23
      ++ js "border-slate-300 focus:ring-blue-500"
  | TransportModeSelect =>
      js "mt-1 block w-full border rounded-lg shadow-sm px-4 py-3 text-sm text-slate-800 placeholder-slate-400"
      ++ lineBreak 23
      ++ js "focus:outline-none focus:ring-2 focus:border-blue-500 transition-all duration-200 bg-white"
      ++ lineBreak 23
      ++ js "border-slate-300 focus:ring-blue-500"
  end.

(** The message paragraph under an input: [{errors.f && <p>...</p>}], and
    [{geoError && <p>...</p>}] under pincode. *)
Definition errorMessage (props : CompanySectionProps) (el : Element)
  : option jsstring :=
  match el with
  | Field pincode =>
      if truthy (error (pincodeLookup props)) then error (pincodeLookup props)
      else None
  | Field f =>
      if truthy (errors (vendorBasics props) f)
      then errors (vendorBasics props) f else None
  | StateInput | CityInput | TransportModeSelect => None
  end.

(** The "(Manual)" marker in the labels of state and city. *)
Definition manualLabel (props : CompanySectionProps) (el : Element) : bool :=
  match el with
  | StateInput | CityInput => isManual (pincodeLookup props)
  | Field _ | TransportModeSelect => false
  end.

(** How the browser reads a class attribute: the tokens between runs of
    ASCII white space. *)
Definition isAsciiWhitespace (c : N) : bool :=
  (c =? 9) || (c =? 10) || (c =? 12) || (c =? 13) || (c =? 32).

Fixpoint splitTokens (s : jsstring) (current : jsstring) : list jsstring :=
  match s with
  | [] => match current with [] => [] | _ => [current] end
  | c :: rest =>
      if isAsciiWhitespace c
      then match current with
           | [] => splitTokens rest []
           | _ => current :: splitTokens rest []
           end
      else splitTokens rest (current ++ [c])
  end.

Definition classTokens (s : jsstring) : list jsstring := splitTokens s [].

Definition hasClass (token : jsstring) (s : jsstring) : bool :=
  existsb (strictEquals token) (classTokens s).

(* ------------------------------------------------------------------ *)
(** *** The effect on the options of the select *)

(** An [<option>] element: its value, the [disabled] flag, the class list
    (an ordered set of tokens) and its other content attributes, in order. *)
Record HTMLOptionElement : Type := {
  value : jsstring;
  disabled : bool;
  classList : list jsstring;
  attributes : list (jsstring * jsstring)
}.

Fixpoint getAttribute (attrs : list (jsstring * jsstring)) (name : jsstring)
  : option jsstring :=
  match attrs with
  | [] => None
  | (n, v) :: rest => if strictEquals n name then Some v else getAttribute rest name
  end.

(** [setAttribute]: the value of an existing attribute is replaced in
    place, a new attribute is appended. *)
Fixpoint setAttribute (attrs : list (jsstring * jsstring)) (name val : jsstring)
  : list (jsstring * jsstring) :=
  match attrs with
  | [] => [(name, val)]
  | (n, v) :: rest =>
      if strictEquals n name then (n, val) :: rest
      else (n, v) :: setAttribute rest name val
  end.

(** [classList.add]: a token already present is not added again. *)
Definition classList_add (tokens : list jsstring) (token : jsstring)
  : list jsstring :=
  if existsb (strictEquals token) tokens then tokens else tokens ++ [token].

(** The body of the [forEach] callback of the effect. *)
Definition disableUnlessRoad (option : HTMLOptionElement) : HTMLOptionElement :=
  if negb (strictEquals (value option) (js "road"))
  then {| value := value option;
          disabled := true;
          classList := classList_add (classList option) (js "fc-option-disabled");
          attributes :=
            setAttribute
              (setAttribute (attributes option) (js "aria-disabled") (js "true"))
              (js "tabindex") (js "-1") |}
  else option.

(** The effect: [transportSelectRef.current] is [None] before the select
    is mounted, and then nothing happens. *)
Definition disableNonRoadOptions (current : option (list HTMLOptionElement))
  : option (list HTMLOptionElement) :=
  match current with
  | Some options => Some (map disableUnlessRoad options)
  | None => None
  end.

(** The four options as the component renders them. *)
Definition renderedOption (m : TransportMode) : HTMLOptionElement :=
  {| value := optionValue m; disabled := false; classList := []; attributes := [] |}.

Definition renderedOptions : list HTMLOptionElement :=
  [renderedOption road; renderedOption air; renderedOption rail; renderedOption ship].

(** [a] is [b] with some code units left out, the order kept. *)
Inductive Subsequence : jsstring -> jsstring -> Prop :=
  | Subsequence_nil : Subsequence [] []
  | Subsequence_skip c a b : Subsequence a b -> Subsequence a (c :: b)
  | Subsequence_keep c a b : Subsequence a b -> Subsequence (c :: a) (c :: b).

(** A string all of whose code units are below 65536. *)
Definition wellFormed (s : jsstring) : bool := forallb (fun c => c <=? 65535) s.

(** Letters of either case and digits. *)
Definition isAsciiAlnum (c : N) : bool :=
  inRange 48 57 c || inRange 65 90 c || inRange 97 122 c.

(* ================================================================== *)
(** ** String operations: basic facts *)
(* ================================================================== *)

Section StringFacts.

Lemma slice_prefix (s : jsstring) (n : Z) :
  (0 <= n)%Z -> slice s 0 n = firstn (Z.to_nat n) s.
Proof.
  intros Hn. unfold slice.
  replace (0 <? 0)%Z with false by reflexivity.
  replace (n <? 0)%Z with false by (symmetry; apply Z.ltb_ge; lia).
  remember (Z.of_nat (List.length s)) as len eqn:Elen.
  assert (Hlen : (0 <= len)%Z) by lia.
  rewrite (Z.min_l 0 len) by lia.
  destruct (Z.geb_spec 0 (Z.min n len)) as [Hz | Hz].
  - destruct (Z.eq_dec n 0) as [-> | Hne]; [reflexivity |].
    assert (Hlen0 : len = 0%Z) by lia.
    assert (Hnil : List.length s = 0%nat) by lia.
    apply length_zero_iff_nil in Hnil. subst s. now rewrite firstn_nil.
  - rewrite Z.sub_0_r. change (Z.to_nat 0) with 0%nat. cbn [skipn].
    destruct (Z.le_ge_cases n len) as [Hle | Hge].
    + now rewrite Z.min_l by lia.
    + rewrite Z.min_r by lia.
      rewrite (firstn_all2 (n := Z.to_nat len)) by lia.
      rewrite (firstn_all2 (n := Z.to_nat n)) by lia.
      reflexivity.
Qed.

Lemma replace_delete (p : Pattern) (s : jsstring) :
  replace p [] s = filter (fun c => negb (patternMatches p c)) s.
Proof.
  induction s as [| c rest IH]; cbn; [reflexivity |].
  destruct (patternMatches p c); cbn; now rewrite IH.
Qed.

Lemma notUpperAlnum_keeps (c : N) :
  negb (patternMatches re_notUpperAlnum c) = Spec.inClass Spec.UpperAlnum c.
Proof.
  cbn. rewrite orb_false_r. now destruct (inRange 65 90 c || inRange 48 57 c).
Qed.

Lemma notDigit_keeps (c : N) :
  negb (patternMatches re_notDigit c) = Spec.inClass Spec.Digits c.
Proof. cbn. apply negb_involutive. Qed.

(** The name pattern keeps the class of the table and every code unit
    that [\s] matches. *)
Lemma notName_keeps (c : N) :
  negb (patternMatches re_notName c)
  = Spec.inClass Spec.NameChars c || isWhiteSpace c.
Proof.
  cbn. unfold Spec.isLetter. rewrite orb_false_r.
  destruct (inRange 97 122 c), (inRange 65 90 c), (isWhiteSpace c) eqn:Hws,
           (c =? 45), (c =? 39), (c =? 32) eqn:Hsp; try reflexivity.
  all: apply N.eqb_eq in Hsp; subst c; discriminate Hws.
Qed.

Lemma filter_ext_eq {A} (f g : A -> bool) (l : list A) :
  (forall a, f a = g a) -> filter f l = filter g l.
Proof. intros H. apply filter_ext_in. auto. Qed.

Lemma filter_all {A} (f : A -> bool) (l : list A) :
  Forall (fun a => f a = true) l -> filter f l = l.
Proof.
  induction 1 as [| a l Ha _ IH]; cbn; [reflexivity |].
  now rewrite Ha, IH.
Qed.

Lemma Forall_filter_true {A} (f : A -> bool) (l : list A) :
  Forall (fun a => f a = true) (filter f l).
Proof. apply Forall_forall. intros a Ha. now apply filter_In in Ha. Qed.

Lemma Forall_firstn {A} (P : A -> Prop) (n : nat) (l : list A) :
  Forall P l -> Forall P (firstn n l).
Proof.
  intros H. apply Forall_forall. intros a Ha.
  rewrite Forall_forall in H. apply H.
  rewrite <- (firstn_skipn n l). apply in_or_app. now left.
Qed.

Lemma firstn_idem {A} (n : nat) (l : list A) :
  firstn n (firstn n l) = firstn n l.
Proof. rewrite firstn_firstn. now rewrite Nat.min_id. Qed.

Lemma firstn_filter_idem {A} (f : A -> bool) (n : nat) (l : list A) :
  firstn n (filter f (firstn n (filter f l))) = firstn n (filter f l).
Proof.
  rewrite (filter_all f (firstn n (filter f l))).
  - apply firstn_idem.
  - apply Forall_firstn, Forall_filter_true.
Qed.

End StringFacts.

(* ================================================================== *)
(** ** [toUpperCase] on ASCII strings *)
(* ================================================================== *)

Section UpperCaseFacts.

Variable unicodeUpper : N -> list N.

Lemma StringToCodePoints_ascii (s : jsstring) :
  forallb isAscii s = true -> StringToCodePoints s = s.
Proof.
  induction s as [| a t IH]; [reflexivity |].
  intros H. cbn [forallb] in H. apply andb_prop in H as [Ha Ht].
  specialize (IH Ht). cbn [StringToCodePoints].
  destruct t as [| b rest]; [reflexivity |].
  replace (isLeadSurrogate a) with false.
  - cbn [andb]. now rewrite IH.
  - symmetry. unfold isAscii in Ha. apply N.ltb_lt in Ha.
    unfold isLeadSurrogate, inRange. apply andb_false_intro1.
    apply N.leb_gt. lia.
Qed.

Lemma asciiUpper_ascii (c : N) : isAscii c = true -> isAscii (asciiUpper c) = true.
Proof.
  unfold isAscii, asciiUpper. intros H. apply N.ltb_lt in H.
  destruct (inRange 97 122 c); apply N.ltb_lt; lia.
Qed.

Lemma toUpperCase_ascii (s : jsstring) :
  forallb isAscii s = true -> toUpperCase unicodeUpper s = map asciiUpper s.
Proof.
  intros H. unfold toUpperCase. rewrite (StringToCodePoints_ascii s H).
  induction s as [| a t IH]; [reflexivity |].
  cbn [forallb] in H. apply andb_prop in H as [Ha Ht].
  cbn [flat_map map]. unfold CodePointsToString in *.
  rewrite flat_map_app, (IH Ht).
  unfold toUppercaseCodePoint. unfold isAscii in Ha. rewrite Ha.
  cbn [flat_map app]. unfold UTF16EncodeCodePoint.
  replace (asciiUpper a <=? 65535) with true; [reflexivity |].
  symmetry. apply N.leb_le. apply N.ltb_lt in Ha.
  unfold asciiUpper. destruct (inRange 97 122 a); lia.
Qed.

Lemma upperAlnum_ascii (c : N) :
  Spec.inClass Spec.UpperAlnum c = true -> isAscii c = true.
Proof.
  cbn. unfold inRange, isAscii. intros H. apply N.ltb_lt.
  apply orb_prop in H as [H | H]; apply andb_prop in H as [_ H];
    apply N.leb_le in H; lia.
Qed.

Lemma upperAlnum_fixed (c : N) :
  Spec.inClass Spec.UpperAlnum c = true -> asciiUpper c = c.
Proof.
  cbn. unfold asciiUpper, inRange. intros H.
  replace ((97 <=? c) && (c <=? 122)) with false; [reflexivity |].
  symmetry. apply andb_false_intro1. apply N.leb_gt.
  apply orb_prop in H as [H | H]; apply andb_prop in H as [_ H];
    apply N.leb_le in H; lia.
Qed.

(** Upper-casing a string of A-Z and 0-9 changes nothing. *)
Lemma toUpperCase_upperAlnum (s : jsstring) :
  Forall (fun c => Spec.inClass Spec.UpperAlnum c = true) s ->
  toUpperCase unicodeUpper s = s.
Proof.
  intros H. rewrite toUpperCase_ascii.
  - induction H as [| c l Hc _ IH]; [reflexivity |].
    cbn [map]. now rewrite IH, (upperAlnum_fixed c Hc).
  - apply forallb_forall. rewrite Forall_forall in H.
    intros c Hc. apply upperAlnum_ascii. now apply H.
Qed.

End UpperCaseFacts.

(* ================================================================== *)
(** ** The change handlers as filter-then-truncate *)
(* ================================================================== *)

Ltac slice_to_firstn :=
  repeat (rewrite slice_prefix by lia;
          match goal with
          | |- context [Z.to_nat ?z] =>
              let n := eval vm_compute in (Z.to_nat z) in
              change (Z.to_nat z) with n
          end).

Section MaskFacts.

Variable unicodeUpper : N -> list N.

Lemma filter_kept_any (f : FieldId) (s : jsstring) :
  fieldPattern f = None -> filter (kept f) s = s.
Proof.
  intros H. apply filter_all, Forall_forall. intros c _.
  unfold kept. now rewrite H.
Qed.

(** Every handler computes: case transform, delete what the pattern
    matches, keep the first [maxLength] code units. *)
Lemma mask_as_filter (f : FieldId) (raw : jsstring) :
  mask unicodeUpper f raw
  = Spec.truncate (Spec.maxLength f)
      (filter (kept f) (Spec.applyCase unicodeUpper (Spec.caseTransform f) raw)).
Proof.
  destruct f; cbn [mask Spec.maxLength Spec.truncate Spec.caseTransform Spec.applyCase];
    slice_to_firstn; rewrite ?replace_delete;
    rewrite ?filter_kept_any by reflexivity; reflexivity.
Qed.

Lemma kept_allowed (f : FieldId) (c : N) :
  kept f c = Spec.allowed f c || (isNameField f && isWhiteSpace c).
Proof.
  destruct f; unfold kept, Spec.allowed;
    cbn [fieldPattern Spec.allowedClass isNameField andb];
    rewrite ?orb_false_r;
    first [ apply notUpperAlnum_keeps | apply notDigit_keeps
          | apply notName_keeps | reflexivity ].
Qed.

Lemma mask_kept (f : FieldId) (raw : jsstring) :
  Forall (fun c => kept f c = true) (mask unicodeUpper f raw).
Proof.
  rewrite mask_as_filter.
  destruct (Spec.maxLength f) as [n |]; cbn [Spec.truncate].
  - apply Forall_firstn, Forall_filter_true.
  - apply Forall_filter_true.
Qed.

Lemma mask_length (f : FieldId) (raw : jsstring) :
  Spec.withinLength (Spec.maxLength f) (mask unicodeUpper f raw).
Proof.
  rewrite mask_as_filter.
  destruct (Spec.maxLength f) as [n |]; cbn [Spec.truncate Spec.withinLength];
    [| exact I].
  rewrite length_firstn. apply Nat.le_min_l.
Qed.

(** Outside the two name fields the surviving code units are exactly
    those of the field's class. *)
Lemma mask_allowed (f : FieldId) (raw : jsstring) :
  isNameField f = false ->
  Forall (fun c => Spec.allowed f c = true) (mask unicodeUpper f raw).
Proof.
  intros Hf. eapply Forall_impl; [| apply mask_kept].
  intros c Hc. cbv beta in Hc. rewrite kept_allowed, Hf in Hc.
  cbn [andb] in Hc. now rewrite orb_false_r in Hc.
Qed.

(** In a name field a surviving code unit outside the class is white
    space other than the space character. *)
Lemma mask_name_kept (f : FieldId) (raw : jsstring) :
  Forall (fun c => Spec.allowed f c = true \/ isOtherWhiteSpace c = true)
         (mask unicodeUpper f raw).
Proof.
  eapply Forall_impl; [| apply mask_kept].
  intros c Hc. cbv beta in Hc. rewrite kept_allowed in Hc.
  apply orb_prop in Hc as [Hc | Hc]; [now left |].
  apply andb_prop in Hc as [Hf Hws].
  destruct (c =? 32) eqn:Hsp.
  - left. apply N.eqb_eq in Hsp. subst c. now destruct f.
  - right. unfold isOtherWhiteSpace. now rewrite Hws, Hsp.
Qed.

End MaskFacts.

(* ================================================================== *)
(** ** Case transform before filtering *)
(* ================================================================== *)

Section LowercaseKept.

Variable unicodeUpper : N -> list N.

Lemma In_StringToCodePoints_bounded (n : nat) :
  forall (s : jsstring) (c : N),
    (List.length s <= n)%nat ->
    In c s -> isLeadSurrogate c = false -> isTrailSurrogate c = false ->
    In c (StringToCodePoints s).
Proof.
  induction n as [| n IH]; intros s c Hlen Hin Hlead Htrail.
  - destruct s; [contradiction | cbn in Hlen; lia].
  - destruct s as [| a t]; [contradiction |].
    cbn [StringToCodePoints]. destruct t as [| b rest]; [exact Hin |].
    cbn [List.length] in Hlen.
    destruct (isLeadSurrogate a && isTrailSurrogate b) eqn:Hpair.
    + apply andb_prop in Hpair as [Ha Hb]. right.
      destruct Hin as [-> | [-> | Hin]]; [congruence | congruence |].
      apply IH; trivial. lia.
    + destruct Hin as [-> | Hin]; [now left | right].
      apply IH; trivial. cbn [List.length]. lia.
Qed.

Lemma In_StringToCodePoints (s : jsstring) (c : N) :
  In c s -> isAscii c = true -> In c (StringToCodePoints s).
Proof.
  intros Hin Hc. unfold isAscii in Hc. apply N.ltb_lt in Hc.
  apply (In_StringToCodePoints_bounded (List.length s)); trivial.
  - unfold isLeadSurrogate, inRange. apply andb_false_intro1, N.leb_gt. lia.
  - unfold isTrailSurrogate, inRange. apply andb_false_intro1, N.leb_gt. lia.
Qed.

(** An ASCII code unit of the input reaches the output of [toUpperCase]
    as its ASCII uppercase, whatever surrounds it. *)
Lemma In_toUpperCase_ascii (s : jsstring) (c : N) :
  In c s -> isAscii c = true -> In (asciiUpper c) (toUpperCase unicodeUpper s).
Proof.
  intros Hin Hc. unfold toUpperCase, CodePointsToString.
  apply in_flat_map. exists (asciiUpper c). split.
  - apply in_flat_map. exists c. split.
    + now apply In_StringToCodePoints.
    + unfold toUppercaseCodePoint. unfold isAscii in Hc. rewrite Hc. now left.
  - apply asciiUpper_ascii in Hc. unfold isAscii in Hc. apply N.ltb_lt in Hc.
    unfold UTF16EncodeCodePoint.
    replace (asciiUpper c <=? 65535) with true; [now left |].
    symmetry. apply N.leb_le. lia.
Qed.

Lemma lowercase_uppercased (c : N) :
  inRange 97 122 c = true ->
  isAscii c = true /\ asciiUpper c = c - 32
  /\ Spec.inClass Spec.UpperAlnum (c - 32) = true.
Proof.
  intros H. unfold asciiUpper. rewrite H.
  unfold inRange in H. apply andb_prop in H as [Hlo Hhi].
  apply N.leb_le in Hlo, Hhi. repeat split.
  - apply N.ltb_lt. lia.
  - cbn. unfold inRange. apply orb_true_intro. left.
    apply andb_true_intro. split; apply N.leb_le; lia.
Qed.

End LowercaseKept.

(* ================================================================== *)
(** ** Character class and length of the sanitized value *)
(* ================================================================== *)

(** For the five fields whose pattern is the class of the table
    (vendorCode, gstin, the two phone numbers and pincode) the sanitized
    value contains only code units of the class, and every field's value
    is within its length. *)
Theorem mask_class_and_length_without_names :
  forall unicodeUpper f raw,
    Spec.withinLength (Spec.maxLength f) (mask unicodeUpper f raw)
    /\ (isNameField f = false ->
        Forall (fun c => Spec.allowed f c = true) (mask unicodeUpper f raw)).
Proof.
  intros tbl f raw. split; [apply mask_length |].
  intros Hf. now apply mask_allowed.
Qed.

(** C1 (on the code as written): the change handler of primaryContactName
    lets a TAB through, a code unit outside the field's class of letters,
    space, hyphen and apostrophe; contactPersonName does the same with a
    NO-BREAK SPACE (U+00A0).  The length bound is not affected. *)
Theorem mask_name_fields_keep_tab :
  forall unicodeUpper,
    mask unicodeUpper primaryContactName [65; 9; 66] = [65; 9; 66]
    /\ Spec.allowed primaryContactName 9 = false
    /\ mask unicodeUpper contactPersonName [65; 160; 66] = [65; 160; 66]
    /\ Spec.allowed contactPersonName 160 = false.
Proof. intros tbl. repeat split. Qed.

(** C6 (on the code as written): the name pattern [[^a-zA-Z\s\-']] keeps
    every code unit that [\s] matches, so "Ann<NBSP>Lee" (U+00A0 between
    the names) and "A<TAB>B" pass through both name fields unchanged,
    although NBSP and TAB are neither a letter, the space, the hyphen nor
    the apostrophe. *)
Theorem mask_name_fields_keep_other_whitespace :
  forall unicodeUpper,
    mask unicodeUpper primaryContactName (js "Ann" ++ [160] ++ js "Lee")
      = js "Ann" ++ [160] ++ js "Lee"
    /\ mask unicodeUpper contactPersonName (js "Ann" ++ [160] ++ js "Lee")
      = js "Ann" ++ [160] ++ js "Lee"
    /\ mask unicodeUpper contactPersonName (js "A" ++ [9] ++ js "B")
      = js "A" ++ [9] ++ js "B"
    /\ Spec.inClass Spec.NameChars 160 = false
    /\ Spec.inClass Spec.NameChars 9 = false.
Proof. intros tbl. repeat split. Qed.

(* ================================================================== *)
(** ** Transport mode *)
(* ================================================================== *)

(** C2: a change event on the transport-mode selector reports [road],
    whatever value the event carries, in particular for each of the four
    options. *)
Theorem transport_mode_pinned_to_road :
  forall unicodeUpper props,
    (forall value,
        dispatch unicodeUpper props TransportModeSelect (Change value)
        = [onTransportModeChange road])
    /\ (forall m : TransportMode,
        dispatch unicodeUpper props TransportModeSelect (Change (optionValue m))
        = [onTransportModeChange road]).
Proof. intros tbl props. split; reflexivity. Qed.

(* ================================================================== *)
(** ** State and city: when they are writable *)
(* ================================================================== *)

(** C3, as stated, fails: with [isManual] set and no lookup error the
    state and city inputs are not read-only and an edit goes through. *)
Lemma state_city_writable_without_error :
  truthy (error (pincodeLookup propsManualNoError)) = false
  /\ readOnly propsManualNoError StateInput = false
  /\ readOnly propsManualNoError CityInput = false
  /\ userEdit latin1Upper propsManualNoError StateInput (js "Goa")
     = Some [setState (js "Goa")].
Proof. repeat split. Qed.

(** C3 (amended): state and city are writable exactly when [isManual] is
    set or a lookup error is active, and read-only exactly when neither
    holds; so with [isManual] unset they are writable only during an active
    lookup error. *)
Theorem state_city_writable_iff_manual_or_error :
  forall props,
    let manual := isManual (pincodeLookup props) in
    let failed := truthy (error (pincodeLookup props)) in
    (readOnly props StateInput = false <-> manual = true \/ failed = true)
    /\ (readOnly props CityInput = false <-> manual = true \/ failed = true)
    /\ (readOnly props StateInput = true <-> manual = false /\ failed = false)
    /\ (readOnly props CityInput = true <-> manual = false /\ failed = false)
    /\ (manual = false ->
        (readOnly props StateInput = false <-> failed = true)
        /\ (readOnly props CityInput = false <-> failed = true)).
Proof.
  intros props. cbn [readOnly].
  destruct (isManual (pincodeLookup props)),
           (truthy (error (pincodeLookup props))); cbn;
    intuition congruence.
Qed.

Lemma state_city_writable_iff_manual_or_error_witness :
  isManual (pincodeLookup propsLookupFailed) = false
  /\ (readOnly propsLookupFailed StateInput = false
      <-> truthy (error (pincodeLookup propsLookupFailed)) = true)
  /\ (readOnly propsLookupFailed CityInput = false
      <-> truthy (error (pincodeLookup propsLookupFailed)) = true).
Proof.
  split; [reflexivity |].
  apply (state_city_writable_iff_manual_or_error propsLookupFailed).
  reflexivity.
Defined.

(* ================================================================== *)
(** ** Order of the steps of a change handler *)
(* ================================================================== *)

(** C4, as stated, fails on the fields with a case transform: vendorCode
    turns "ab" into "AB", while filtering the raw input by A-Z and 0-9
    leaves nothing. *)
Lemma vendorCode_is_not_filter_of_raw :
  mask latin1Upper vendorCode (js "ab") = js "AB"
  /\ Spec.filterThenTruncate vendorCode (js "ab") = []
  /\ mask latin1Upper vendorCode (js "ab")
     <> Spec.filterThenTruncate vendorCode (js "ab").
Proof. repeat split. vm_compute. discriminate. Qed.

(** C4 (amended): for every field with a character-class rule the
    sanitized value is the field's case transform of the raw input,
    filtered by the field's class and then truncated to its length --
    for the two name fields on inputs whose only white space is the space
    character.  Truncating first gives another result: on
    "12a3-456b7890123" primaryContactPhone yields "1234567890", while
    truncate-then-filter would yield "1234567". *)
Theorem mask_filters_then_truncates :
  forall unicodeUpper f raw,
    Spec.hasCharClassRule f = true ->
    (isNameField f = true -> existsb isOtherWhiteSpace raw = false) ->
    mask unicodeUpper f raw
    = Spec.filterThenTruncate f
        (Spec.applyCase unicodeUpper (Spec.caseTransform f) raw)
    /\ mask unicodeUpper primaryContactPhone (js "12a3-456b7890123")
       = js "1234567890"
    /\ Spec.truncateThenFilter primaryContactPhone (js "12a3-456b7890123")
       = js "1234567".
Proof.
  intros tbl f raw Hrule Hws. split; [| split; reflexivity].
  rewrite mask_as_filter. unfold Spec.filterThenTruncate. f_equal.
  destruct (isNameField f) eqn:Hname.
  - assert (Hcase : Spec.caseTransform f = Spec.CaseNone) by now destruct f.
    rewrite Hcase. cbn [Spec.applyCase].
    specialize (Hws eq_refl). apply filter_ext_in. intros c Hc.
    rewrite kept_allowed, Hname. cbn [andb].
    destruct (Spec.allowed f c) eqn:Hal; [reflexivity |]. cbn [orb].
    destruct (isWhiteSpace c) eqn:Hw; [| reflexivity].
    assert (Hother : isOtherWhiteSpace c = false).
    { destruct (isOtherWhiteSpace c) eqn:Ho; [| reflexivity].
      assert (existsb isOtherWhiteSpace raw = true) as Hex
          by (apply existsb_exists; eauto).
      congruence. }
    unfold isOtherWhiteSpace in Hother. rewrite Hw in Hother.
    cbn [andb] in Hother. apply negb_false_iff, N.eqb_eq in Hother.
    subst c. destruct f; discriminate.
  - apply filter_ext_eq. intros c. rewrite kept_allowed, Hname.
    cbn [andb]. apply orb_false_r.
Qed.

Lemma mask_filters_then_truncates_witness :
  Spec.hasCharClassRule primaryContactName = true
  /\ existsb isOtherWhiteSpace (js "Mary-Ann O'Neil 3rd (jr.)") = false
  /\ mask latin1Upper primaryContactName (js "Mary-Ann O'Neil 3rd (jr.)")
     = Spec.filterThenTruncate primaryContactName (js "Mary-Ann O'Neil 3rd (jr.)").
Proof.
  split; [reflexivity | split; [reflexivity |]].
  apply (mask_filters_then_truncates latin1Upper primaryContactName
           (js "Mary-Ann O'Neil 3rd (jr.)")); reflexivity.
Defined.

(** C5: vendorCode and gstin upper-case the raw input first, then keep
    A-Z and 0-9, then truncate (to 20 and 15); so every lowercase letter
    of the input survives the filter as its uppercase.  "ab-12cd" gives
    "AB12CD" and "22aaaaa0000a1z5extra" gives "22AAAAA0000A1Z5". *)
Theorem uppercase_precedes_filter :
  forall unicodeUpper raw,
    let filtered :=
      filter (Spec.inClass Spec.UpperAlnum) (toUpperCase unicodeUpper raw) in
    mask unicodeUpper vendorCode raw = firstn 20 filtered
    /\ mask unicodeUpper gstin raw = firstn 15 filtered
    /\ (forall c, In c raw -> inRange 97 122 c = true -> In (c - 32) filtered)
    /\ mask unicodeUpper vendorCode (js "ab-12cd") = js "AB12CD"
    /\ mask unicodeUpper gstin (js "22aaaaa0000a1z5extra") = js "22AAAAA0000A1Z5".
Proof.
  intros tbl raw filtered. subst filtered.
  split; [| split; [| split; [| split; reflexivity]]].
  - rewrite mask_as_filter. cbn [Spec.maxLength Spec.truncate Spec.caseTransform Spec.applyCase].
    f_equal. apply filter_ext_eq. intros c.
    unfold kept. cbn [fieldPattern]. apply notUpperAlnum_keeps.
  - rewrite mask_as_filter. cbn [Spec.maxLength Spec.truncate Spec.caseTransform Spec.applyCase].
    f_equal. apply filter_ext_eq. intros c.
    unfold kept. cbn [fieldPattern]. apply notUpperAlnum_keeps.
  - intros c Hin Hlow.
    destruct (lowercase_uppercased c Hlow) as (Hascii & Hup & Hclass).
    apply filter_In. split; [| exact Hclass].
    rewrite <- Hup. now apply In_toUpperCase_ascii.
Qed.

Lemma uppercase_precedes_filter_witness :
  In 99 (js "ab-12cd") /\ inRange 97 122 99 = true
  /\ In 67 (filter (Spec.inClass Spec.UpperAlnum)
              (toUpperCase latin1Upper (js "ab-12cd"))).
Proof.
  split; [simpl; tauto | split; [reflexivity |]].
  apply (uppercase_precedes_filter latin1Upper (js "ab-12cd")) with (c := 99);
    [simpl; tauto | reflexivity].
Defined.

(* ================================================================== *)
(** ** Idempotence *)
(* ================================================================== *)

(** C7: sanitizing a sanitized value changes nothing, for each of the
    fourteen fields and every input. *)
Theorem mask_idempotent :
  forall unicodeUpper f x,
    mask unicodeUpper f (mask unicodeUpper f x) = mask unicodeUpper f x.
Proof.
  intros tbl f x.
  rewrite (mask_as_filter tbl f (mask tbl f x)).
  assert (Hcase : Spec.applyCase tbl (Spec.caseTransform f) (mask tbl f x)
                  = mask tbl f x).
  { destruct (Spec.caseTransform f) eqn:Hct; [reflexivity |].
    cbn [Spec.applyCase]. apply toUpperCase_upperAlnum.
    assert (Hname : isNameField f = false) by (destruct f; trivial; discriminate).
    assert (Hclass : Spec.allowedClass f = Spec.UpperAlnum)
      by (destruct f; trivial; discriminate).
    generalize (mask_allowed tbl f x Hname).
    unfold Spec.allowed. now rewrite Hclass. }
  rewrite Hcase, (filter_all (kept f)) by apply mask_kept.
  generalize (mask_length tbl f x).
  destruct (Spec.maxLength f) as [n |]; cbn [Spec.truncate Spec.withinLength];
    [| reflexivity].
  intros Hlen. now apply firstn_all2.
Qed.

(* ================================================================== *)
(** ** Which calls a handler makes *)
(* ================================================================== *)

(** C8, as stated, fails on pincode: its change handler calls
    [setPincode], not [setField]. *)
Lemma pincode_change_calls_setPincode :
  dispatch latin1Upper propsLookupFailed (Field pincode) (Change (js "11a0001"))
  = [setPincode (js "110001")]
  /\ dispatch latin1Upper propsLookupFailed (Field pincode) (Change (js "11a0001"))
     <> [setField pincode (mask latin1Upper pincode (js "11a0001"))].
Proof. split; [reflexivity | discriminate]. Qed.

(** C8 (amended): a change event on a masked field makes exactly one
    call, carrying the sanitized value: [setField] for the thirteen fields
    of the form-state store and [setPincode] for pincode.  No change event
    calls [validateField]; [validateField f] comes only from a blur event
    on the input of field [f]. *)
Theorem change_sets_blur_validates :
  forall unicodeUpper props,
    (forall f raw,
        dispatch unicodeUpper props (Field f) (Change raw)
        = match f with
          | pincode => [setPincode (mask unicodeUpper pincode raw)]
          | _ => [setField f (mask unicodeUpper f raw)]
          end)
    /\ (forall el ev g,
        In (validateField g) (dispatch unicodeUpper props el ev) ->
        el = Field g /\ ev = Blur).
Proof.
  intros tbl props. split.
  - intros f raw. now destruct f.
  - intros el ev g Hin. destruct ev as [value |].
    + destruct el as [f | | |]; [destruct f | | |]; cbn in Hin;
        destruct Hin as [Hin | []]; discriminate Hin.
    + destruct el as [f | | |]; cbn [dispatch onBlur] in Hin;
        try contradiction.
      destruct f; cbn [onBlur] in Hin;
        try match type of Hin with
            | In _ (if ?b then _ else _) => destruct b
            end;
        try contradiction;
        destruct Hin as [Hin | []]; inversion Hin; now split.
Qed.

Lemma change_sets_blur_validates_witness :
  In (validateField vendorCode)
     (dispatch latin1Upper propsLookupFailed (Field vendorCode) Blur)
  /\ Field vendorCode = Field vendorCode /\ Blur = Blur.
Proof.
  split; [now left |].
  apply (change_sets_blur_validates latin1Upper propsLookupFailed).
  now left.
Defined.

(** C9: a blur on gstin calls [validateField gstin] exactly when the
    current gstin value is a non-empty string; with gstin undefined or
    empty the blur makes no call.  Every other field with a blur handler
    calls [validateField] unconditionally. *)
Theorem gstin_blur_validates_iff_nonempty :
  forall unicodeUpper props,
    let value := basics (vendorBasics props) gstin in
    (In (validateField gstin) (dispatch unicodeUpper props (Field gstin) Blur)
     <-> exists c rest, value = Some (c :: rest))
    /\ (value = None \/ value = Some [] ->
        dispatch unicodeUpper props (Field gstin) Blur = [])
    /\ (forall c rest, value = Some (c :: rest) ->
        dispatch unicodeUpper props (Field gstin) Blur = [validateField gstin])
    /\ (forall f, f <> gstin -> f <> pincode ->
        dispatch unicodeUpper props (Field f) Blur = [validateField f]).
Proof.
  intros tbl props value. subst value. cbn [dispatch onBlur].
  destruct (basics (vendorBasics props) gstin) as [[| c rest] |]; cbn [truthy].
  - split; [| split; [| split]].
    + split; [intros [] | intros (c & rest & H); discriminate H].
    + reflexivity.
    + intros c rest H. discriminate H.
    + intros f Hg Hp. destruct f; trivial; contradiction.
  - split; [| split; [| split]].
    + split; [intros _; eauto | intros _; now left].
    + intros [H | H]; discriminate H.
    + reflexivity.
    + intros f Hg Hp. destruct f; trivial; contradiction.
  - split; [| split; [| split]].
    + split; [intros [] | intros (c & rest & H); discriminate H].
    + reflexivity.
    + intros c rest H. discriminate H.
    + intros f Hg Hp. destruct f; trivial; contradiction.
Qed.

Lemma gstin_blur_validates_iff_nonempty_witness :
  basics (vendorBasics (sampleProps (Some (js "22AAAAA0000A1Z5")) false None)) gstin
  = Some (js "22AAAAA0000A1Z5")
  /\ dispatch latin1Upper (sampleProps (Some (js "22AAAAA0000A1Z5")) false None)
       (Field gstin) Blur
     = [validateField gstin]
  /\ dispatch latin1Upper (sampleProps None false None) (Field gstin) Blur = [].
Proof.
  split; [reflexivity | split].
  - apply (gstin_blur_validates_iff_nonempty latin1Upper
             (sampleProps (Some (js "22AAAAA0000A1Z5")) false None))
      with (c := 50) (rest := js "2AAAAA0000A1Z5").
    reflexivity.
  - apply (gstin_blur_validates_iff_nonempty latin1Upper
             (sampleProps None false None)).
    now left.
Defined.

(** C10: an edit of the state or city input, which a writable input lets
    through, hands the raw string unchanged to [setState] or [setCity] and
    makes no other call; neither input has a blur handler, so no event on
    them calls [validateField]. *)
Theorem state_city_pass_raw_value :
  forall unicodeUpper props raw,
    onChange unicodeUpper StateInput raw = [setState raw]
    /\ onChange unicodeUpper CityInput raw = [setCity raw]
    /\ (readOnly props StateInput = false ->
        userEdit unicodeUpper props StateInput raw = Some [setState raw])
    /\ (readOnly props CityInput = false ->
        userEdit unicodeUpper props CityInput raw = Some [setCity raw])
    /\ (forall ev f,
        ~ In (validateField f) (dispatch unicodeUpper props StateInput ev)
        /\ ~ In (validateField f) (dispatch unicodeUpper props CityInput ev)).
Proof.
  intros tbl props raw.
  split; [reflexivity | split; [reflexivity | split; [| split]]].
  - intros H. unfold userEdit. now rewrite H.
  - intros H. unfold userEdit. now rewrite H.
  - intros ev f. destruct ev; cbn; split; intros H;
      try contradiction; destruct H as [H | []]; discriminate H.
Qed.

Lemma state_city_pass_raw_value_witness :
  readOnly propsLookupFailed StateInput = false
  /\ userEdit latin1Upper propsLookupFailed StateInput
       (js "  tamil nadu!! 12345678901234567890")
     = Some [setState (js "  tamil nadu!! 12345678901234567890")].
Proof.
  split; [reflexivity |].
  apply (state_city_pass_raw_value latin1Upper propsLookupFailed
           (js "  tamil nadu!! 12345678901234567890")).
  reflexivity.
Defined.

(* ================================================================== *)
(** ** More on the string operations *)
(* ================================================================== *)

Section MoreStringFacts.

Lemma strictEquals_eq (a b : jsstring) : strictEquals a b = true <-> a = b.
Proof.
  revert b. induction a as [| x a IH]; intros [| y b]; cbn; split;
    try discriminate; try reflexivity.
  - intros H. apply andb_prop in H as [Hx Hab].
    apply N.eqb_eq in Hx. apply IH in Hab. now subst.
  - intros H. injection H as -> ->. rewrite N.eqb_refl. now apply IH.
Qed.

Lemma strictEquals_refl (a : jsstring) : strictEquals a a = true.
Proof. now apply strictEquals_eq. Qed.

Lemma strictEquals_neq (a b : jsstring) : strictEquals a b = false <-> a <> b.
Proof.
  split.
  - intros H Hab. apply strictEquals_eq in Hab. congruence.
  - intros H. destruct (strictEquals a b) eqn:E; [| reflexivity].
    apply strictEquals_eq in E. contradiction.
Qed.

Lemma Subsequence_refl (s : jsstring) : Subsequence s s.
Proof. induction s; constructor; assumption. Qed.

Lemma Subsequence_length (a b : jsstring) :
  Subsequence a b -> (List.length a <= List.length b)%nat.
Proof. induction 1; cbn; lia. Qed.

Lemma Subsequence_filter (f : N -> bool) (s : jsstring) :
  Subsequence (filter f s) s.
Proof.
  induction s as [| c s IH]; cbn; [constructor |].
  destruct (f c); now constructor.
Qed.

Lemma Subsequence_nil_l (s : jsstring) : Subsequence [] s.
Proof. induction s; constructor; assumption. Qed.

Lemma Subsequence_firstn (n : nat) (s : jsstring) :
  Subsequence (firstn n s) s.
Proof.
  revert n. induction s as [| c s IH]; intros [| n]; cbn.
  - constructor.
  - constructor.
  - apply Subsequence_nil_l.
  - apply Subsequence_keep, IH.
Qed.

Lemma Subsequence_trans (a b c : jsstring) :
  Subsequence a b -> Subsequence b c -> Subsequence a c.
Proof.
  intros Hab Hbc. revert a Hab.
  induction Hbc as [| x b c Hbc IH | x b c Hbc IH]; intros a Hab.
  - exact Hab.
  - apply Subsequence_skip. now apply IH.
  - inversion Hab; subst.
    + apply Subsequence_skip. now apply IH.
    + apply Subsequence_keep. now apply IH.
Qed.

Lemma Subsequence_truncate_filter (n : option nat) (f : N -> bool) (s : jsstring) :
  Subsequence (Spec.truncate n (filter f s)) s.
Proof.
  destruct n as [k |]; cbn [Spec.truncate].
  - eapply Subsequence_trans; [apply Subsequence_firstn | apply Subsequence_filter].
  - apply Subsequence_filter.
Qed.

Lemma StringToCodePoints_app_ascii (v s : jsstring) :
  forallb isAscii v = true ->
  StringToCodePoints (v ++ s) = v ++ StringToCodePoints s.
Proof.
  induction v as [| a t IH]; [reflexivity |].
  intros H. cbn [forallb] in H. apply andb_prop in H as [Ha Ht].
  specialize (IH Ht). cbn [app StringToCodePoints].
  assert (Hlead : isLeadSurrogate a = false).
  { unfold isAscii in Ha. apply N.ltb_lt in Ha.
    unfold isLeadSurrogate, inRange. apply andb_false_intro1, N.leb_gt. lia. }
  rewrite Hlead. cbn [andb].
  destruct (t ++ s) as [| b rest] eqn:E.
  - rewrite <- IH. reflexivity.
  - now rewrite <- IH.
Qed.

Lemma encode_ascii (v : jsstring) :
  forallb isAscii v = true -> CodePointsToString v = v.
Proof.
  induction v as [| a t IH]; [reflexivity |].
  intros H. cbn [forallb] in H. apply andb_prop in H as [Ha Ht].
  unfold CodePointsToString in *. cbn [flat_map].
  rewrite (IH Ht). unfold UTF16EncodeCodePoint.
  unfold isAscii in Ha. apply N.ltb_lt in Ha.
  replace (a <=? 65535) with true; [reflexivity |].
  symmetry. apply N.leb_le. lia.
Qed.

End MoreStringFacts.

Section UpperCaseAppend.

Variable unicodeUpper : N -> list N.

Lemma forallb_upperAlnum_ascii (v : jsstring) :
  Forall (fun c => Spec.inClass Spec.UpperAlnum c = true) v ->
  forallb isAscii v = true.
Proof.
  intros H. apply forallb_forall. rewrite Forall_forall in H.
  intros c Hc. apply upperAlnum_ascii. now apply H.
Qed.

(** Upper-casing leaves a prefix of A-Z and 0-9 alone and does not let it
    interact with what follows. *)
Lemma toUpperCase_app_upperAlnum (v s : jsstring) :
  Forall (fun c => Spec.inClass Spec.UpperAlnum c = true) v ->
  toUpperCase unicodeUpper (v ++ s) = v ++ toUpperCase unicodeUpper s.
Proof.
  intros Hv. pose proof (forallb_upperAlnum_ascii v Hv) as Hascii.
  unfold toUpperCase, CodePointsToString.
  rewrite (StringToCodePoints_app_ascii v s Hascii).
  rewrite !flat_map_app. f_equal.
  pose proof (toUpperCase_upperAlnum unicodeUpper v Hv) as Hfix.
  unfold toUpperCase, CodePointsToString in Hfix.
  now rewrite (StringToCodePoints_ascii v Hascii) in Hfix.
Qed.

End UpperCaseAppend.

(* ================================================================== *)
(** ** The change handlers: bounds, fixed points, typing at the end *)
(* ================================================================== *)

Lemma maxLengthAttr_is_slice_bound (f : FieldId) :
  maxLengthAttr (Field f) = Spec.maxLength f.
Proof. now destruct f. Qed.

Lemma kept_upperAlnum (f : FieldId) (v : jsstring) :
  Spec.caseTransform f = Spec.CaseUpper ->
  Forall (fun c => kept f c = true) v ->
  Forall (fun c => Spec.inClass Spec.UpperAlnum c = true) v.
Proof.
  intros Hf. apply Forall_impl. intros c Hc.
  rewrite <- notUpperAlnum_keeps.
  destruct f; try discriminate Hf; exact Hc.
Qed.

Lemma applyCase_kept (unicodeUpper : N -> list N) (f : FieldId) (v s : jsstring) :
  Forall (fun c => kept f c = true) v ->
  Spec.applyCase unicodeUpper (Spec.caseTransform f) (v ++ s)
  = v ++ Spec.applyCase unicodeUpper (Spec.caseTransform f) s.
Proof.
  intros Hv. destruct (Spec.caseTransform f) eqn:Hf; cbn [Spec.applyCase];
    [reflexivity |].
  apply toUpperCase_app_upperAlnum. now apply (kept_upperAlnum f).
Qed.

Lemma mask_fixed_kept (unicodeUpper : N -> list N) (f : FieldId) (x : jsstring) :
  mask unicodeUpper f x = x ->
  Forall (fun c => kept f c = true) x /\ Spec.withinLength (Spec.maxLength f) x.
Proof.
  intros H. rewrite <- H. split; [apply mask_kept | apply mask_length].
Qed.

Lemma mask_fixed_of_kept (unicodeUpper : N -> list N) (f : FieldId) (x : jsstring) :
  Forall (fun c => kept f c = true) x -> Spec.withinLength (Spec.maxLength f) x ->
  mask unicodeUpper f x = x.
Proof.
  intros Hkept Hlen. rewrite mask_as_filter.
  pose proof (applyCase_kept unicodeUpper f x [] Hkept) as Hcase.
  rewrite app_nil_r in Hcase. rewrite Hcase.
  assert (Hnil : Spec.applyCase unicodeUpper (Spec.caseTransform f) [] = [])
    by (destruct (Spec.caseTransform f); reflexivity).
  rewrite Hnil, app_nil_r, (filter_all (kept f) x Hkept).
  destruct (Spec.maxLength f) as [n |]; cbn [Spec.truncate Spec.withinLength] in *;
    [| reflexivity].
  now apply firstn_all2.
Qed.

(** The cap of a handler's [slice] is the [maxLength] attribute of its
    input: whatever is typed or pasted, the value handed on fits the
    attribute; an input without the attribute (the two e-mail inputs) hands
    the raw string on unchanged. *)
Theorem mask_fits_maxLength_attribute :
  forall unicodeUpper f raw,
    match maxLengthAttr (Field f) with
    | Some n => (List.length (mask unicodeUpper f raw) <= n)%nat
    | None => mask unicodeUpper f raw = raw
    end.
Proof.
  intros tbl f raw. pose proof (mask_length tbl f raw) as H.
  rewrite <- maxLengthAttr_is_slice_bound in H.
  destruct (maxLengthAttr (Field f)) eqn:E; [exact H |].
  destruct f; try discriminate E; reflexivity.
Qed.

(** A handler leaves a value unchanged exactly when the value has no code
    unit its pattern deletes and fits the [maxLength] attribute. *)
Theorem mask_fixed_point_iff :
  forall unicodeUpper f x,
    mask unicodeUpper f x = x
    <-> Forall (fun c => kept f c = true) x
        /\ Spec.withinLength (maxLengthAttr (Field f)) x.
Proof.
  intros tbl f x. rewrite maxLengthAttr_is_slice_bound. split.
  - apply mask_fixed_kept.
  - intros [Hkept Hlen]. now apply mask_fixed_of_kept.
Qed.

(** Outside vendorCode and gstin a handler only deletes: its result is the
    raw input with some code units left out, in the same order, and so is
    never longer than the input.  For vendorCode and gstin the same holds
    of the upper-cased input. *)
Theorem mask_only_deletes :
  forall unicodeUpper f raw,
    (f <> vendorCode -> f <> gstin ->
     Subsequence (mask unicodeUpper f raw) raw
     /\ (List.length (mask unicodeUpper f raw) <= List.length raw)%nat)
    /\ Subsequence (mask unicodeUpper vendorCode raw) (toUpperCase unicodeUpper raw)
    /\ Subsequence (mask unicodeUpper gstin raw) (toUpperCase unicodeUpper raw).
Proof.
  intros tbl f raw. split; [| split].
  - intros Hv Hg.
    assert (Hsub : Subsequence (mask tbl f raw) raw).
    { rewrite mask_as_filter.
      replace (Spec.applyCase tbl (Spec.caseTransform f) raw) with raw
        by (destruct f; try reflexivity; contradiction).
      apply Subsequence_truncate_filter. }
    split; [exact Hsub | now apply Subsequence_length].
  - rewrite mask_as_filter. apply Subsequence_truncate_filter.
  - rewrite mask_as_filter. apply Subsequence_truncate_filter.
Qed.

Lemma mask_only_deletes_witness :
  primaryContactPhone <> vendorCode /\ primaryContactPhone <> gstin
  /\ Subsequence (mask latin1Upper primaryContactPhone (js "+91 98-7a")) (js "+91 98-7a").
Proof.
  split; [discriminate | split; [discriminate |]].
  apply (mask_only_deletes latin1Upper primaryContactPhone (js "+91 98-7a"));
    discriminate.
Defined.

(** Typing or pasting [s] at the end of a value [v] the handler accepts
    keeps [v] in place: the result is [v] followed by what survives of
    [s], cut at the [maxLength] attribute. *)
Theorem mask_append_to_sanitized :
  forall unicodeUpper f v s,
    mask unicodeUpper f v = v ->
    mask unicodeUpper f (v ++ s)
    = Spec.truncate (maxLengthAttr (Field f))
        (v ++ filter (kept f)
                (Spec.applyCase unicodeUpper (Spec.caseTransform f) s)).
Proof.
  intros tbl f v s Hv. apply mask_fixed_kept in Hv as [Hkept _].
  rewrite mask_as_filter, maxLengthAttr_is_slice_bound.
  rewrite (applyCase_kept tbl f v s Hkept), filter_app.
  do 2 f_equal. now apply filter_all.
Qed.

Lemma mask_append_to_sanitized_witness :
  mask latin1Upper vendorCode (js "AB12") = js "AB12"
  /\ mask latin1Upper vendorCode (js "AB12" ++ js "c-d")
     = Spec.truncate (maxLengthAttr (Field vendorCode))
         (js "AB12" ++ filter (kept vendorCode)
                         (Spec.applyCase latin1Upper
                            (Spec.caseTransform vendorCode) (js "c-d"))).
Proof.
  split; [reflexivity |].
  apply (mask_append_to_sanitized latin1Upper vendorCode (js "AB12") (js "c-d")).
  reflexivity.
Defined.

Lemma mask_append_filter (unicodeUpper : N -> list N) (f : FieldId) (v s : jsstring) :
  mask unicodeUpper f v = v ->
  mask unicodeUpper f (v ++ s)
  = Spec.truncate (Spec.maxLength f)
      (v ++ filter (kept f) (Spec.applyCase unicodeUpper (Spec.caseTransform f) s)).
Proof.
  intros Hv. apply mask_fixed_kept in Hv as [Hkept _].
  rewrite mask_as_filter, (applyCase_kept unicodeUpper f v s Hkept), filter_app.
  do 2 f_equal. now apply filter_all.
Qed.

Lemma truncate_one_more (n : option nat) (v : jsstring) (c : N) (b : bool) :
  Spec.withinLength n v ->
  Spec.truncate n (v ++ (if b then [c] else []))
  = if b && negb match n with
                 | Some k => (k <=? List.length v)%nat
                 | None => false
                 end
    then v ++ [c] else v.
Proof.
  intros Hlen. destruct b; cbn [andb].
  - destruct n as [k |]; cbn [Spec.truncate Spec.withinLength negb] in *;
      [| reflexivity].
    rewrite firstn_app, (firstn_all2 (n := k) v Hlen).
    destruct (Nat.leb_spec k (List.length v)) as [Hfull | Hroom]; cbn [negb].
    + replace (k - List.length v)%nat with 0%nat by lia.
      cbn. apply app_nil_r.
    + destruct (k - List.length v)%nat as [| m] eqn:E; [lia |].
      cbn. now rewrite firstn_nil.
  - rewrite app_nil_r.
    destruct n as [k |]; cbn [Spec.truncate Spec.withinLength] in *; [| reflexivity].
    now apply firstn_all2.
Qed.

(** One key at the end of an accepted value, outside vendorCode and
    gstin: the code unit is appended when the pattern keeps it and the
    input is not yet at its [maxLength]; otherwise the value stays as it
    is.  In vendorCode and gstin an ASCII key is appended in upper case
    under the same conditions. *)
Theorem keystroke_at_end :
  forall unicodeUpper f v c,
    mask unicodeUpper f v = v ->
    let full := match maxLengthAttr (Field f) with
                | Some n => (n <=? List.length v)%nat
                | None => false
                end in
    (f <> vendorCode -> f <> gstin ->
     mask unicodeUpper f (v ++ [c])
     = if kept f c && negb full then v ++ [c] else v)
    /\ (f = vendorCode \/ f = gstin -> isAscii c = true ->
        mask unicodeUpper f (v ++ [c])
        = if kept f (asciiUpper c) && negb full then v ++ [asciiUpper c] else v).
Proof.
  intros tbl f v c Hv full. subst full.
  rewrite maxLengthAttr_is_slice_bound.
  pose proof (mask_fixed_kept tbl f v Hv) as [_ Hlen].
  rewrite (mask_append_filter tbl f v [c] Hv). split.
  - intros Hvc Hg.
    replace (Spec.applyCase tbl (Spec.caseTransform f) [c]) with [c]
      by (destruct f; try reflexivity; contradiction).
    cbn [filter]. now apply truncate_one_more.
  - intros Hf Hc.
    replace (Spec.applyCase tbl (Spec.caseTransform f) [c]) with [asciiUpper c].
    + cbn [filter]. now apply truncate_one_more.
    + assert (Hup : toUpperCase tbl [c] = [asciiUpper c]).
      { rewrite toUpperCase_ascii; [reflexivity |]. cbn. now rewrite Hc. }
      destruct Hf as [-> | ->]; cbn [Spec.caseTransform Spec.applyCase];
        now rewrite Hup.
Qed.

Lemma keystroke_at_end_witness :
  mask latin1Upper pincode (js "110001") = js "110001"
  /\ pincode <> vendorCode /\ pincode <> gstin
  /\ mask latin1Upper pincode (js "110001" ++ [55]) = js "110001".
Proof.
  split; [reflexivity | split; [discriminate | split; [discriminate |]]].
  apply (proj1 (keystroke_at_end latin1Upper pincode (js "110001") 55 eq_refl));
    discriminate.
Defined.

Lemma upperAlnum_of_asciiUpper (c : N) :
  Spec.inClass Spec.UpperAlnum (asciiUpper c) = isAsciiAlnum c.
Proof.
  unfold asciiUpper, isAsciiAlnum. cbn [Spec.inClass].
  unfold inRange.
  destruct (N.leb_spec 97 c), (N.leb_spec c 122); cbn [andb];
    repeat match goal with
           | |- context [?a <=? ?b] => destruct (N.leb_spec a b)
           end; cbn; try reflexivity; lia.
Qed.

Lemma filter_upper_of_ascii (s : jsstring) :
  filter (Spec.inClass Spec.UpperAlnum) (map asciiUpper s)
  = map asciiUpper (filter isAsciiAlnum s).
Proof.
  induction s as [| c s IH]; [reflexivity |].
  cbn [map filter]. rewrite (upperAlnum_of_asciiUpper c), IH.
  now destruct (isAsciiAlnum c).
Qed.

(** On an ASCII input vendorCode and gstin give the letters and digits of
    the input, letters in upper case, cut at 20 and 15: upper-casing and
    then filtering is filtering letters and digits and then upper-casing,
    and upper-casing does not change the length. *)
Theorem vendorCode_gstin_on_ascii :
  forall unicodeUpper raw,
    forallb isAscii raw = true ->
    mask unicodeUpper vendorCode raw
    = firstn 20 (map asciiUpper (filter isAsciiAlnum raw))
    /\ mask unicodeUpper gstin raw
       = firstn 15 (map asciiUpper (filter isAsciiAlnum raw))
    /\ List.length (toUpperCase unicodeUpper raw) = List.length raw.
Proof.
  intros tbl raw H. rewrite !mask_as_filter.
  cbn [Spec.maxLength Spec.truncate Spec.caseTransform Spec.applyCase].
  rewrite (toUpperCase_ascii tbl raw H), length_map.
  repeat split; f_equal; rewrite <- (filter_upper_of_ascii raw);
    apply filter_ext_eq; intros c; unfold kept; cbn [fieldPattern];
    apply notUpperAlnum_keeps.
Qed.

Lemma vendorCode_gstin_on_ascii_witness :
  forallb isAscii (js "po/2024-Ax_7") = true
  /\ mask latin1Upper vendorCode (js "po/2024-Ax_7")
     = firstn 20 (map asciiUpper (filter isAsciiAlnum (js "po/2024-Ax_7"))).
Proof.
  split; [reflexivity |].
  apply (vendorCode_gstin_on_ascii latin1Upper (js "po/2024-Ax_7")).
  reflexivity.
Defined.

(* ================================================================== *)
(** ** The built-ins the handlers call *)
(* ================================================================== *)

Lemma encode_decoded_pair (a b : N) :
  isLeadSurrogate a = true -> isTrailSurrogate b = true ->
  UTF16EncodeCodePoint ((a - 55296) * 1024 + (b - 56320) + 65536) = [a; b].
Proof.
  unfold isLeadSurrogate, isTrailSurrogate, inRange, UTF16EncodeCodePoint.
  intros Ha Hb.
  apply andb_prop in Ha as [Ha1 Ha2]. apply andb_prop in Hb as [Hb1 Hb2].
  apply N.leb_le in Ha1, Ha2, Hb1, Hb2.
  replace ((a - 55296) * 1024 + (b - 56320) + 65536 <=? 65535) with false
    by (symmetry; apply N.leb_gt; lia).
  replace ((a - 55296) * 1024 + (b - 56320) + 65536 - 65536)
    with ((a - 55296) * 1024 + (b - 56320)) by lia.
  rewrite <- (N.div_unique ((a - 55296) * 1024 + (b - 56320)) 1024
                (a - 55296) (b - 56320)) by lia.
  rewrite <- (N.mod_unique ((a - 55296) * 1024 + (b - 56320)) 1024
                (a - 55296) (b - 56320)) by lia.
  f_equal; [lia | f_equal; lia].
Qed.

Lemma utf16_roundtrip_bounded (n : nat) :
  forall s : jsstring,
    (List.length s <= n)%nat -> wellFormed s = true ->
    CodePointsToString (StringToCodePoints s) = s.
Proof.
  unfold CodePointsToString.
  induction n as [| n IH]; intros s Hlen Hwf.
  - destruct s; [reflexivity | cbn in Hlen; lia].
  - destruct s as [| a t]; [reflexivity |].
    unfold wellFormed in Hwf. cbn [forallb] in Hwf.
    apply andb_prop in Hwf as [Ha Ht]. cbn [List.length] in Hlen.
    assert (Hone : UTF16EncodeCodePoint a = [a])
      by (unfold UTF16EncodeCodePoint; now rewrite Ha).
    cbn [StringToCodePoints]. destruct t as [| b rest].
    + cbn [flat_map]. now rewrite Hone.
    + destruct (isLeadSurrogate a && isTrailSurrogate b) eqn:Hpair.
      * apply andb_prop in Hpair as [Hla Htb].
        cbn [forallb] in Ht. apply andb_prop in Ht as [_ Hrest].
        cbn [flat_map]. rewrite (encode_decoded_pair a b Hla Htb).
        cbn [List.length] in Hlen.
        rewrite (IH rest); [reflexivity | lia | exact Hrest].
      * cbn [flat_map]. rewrite Hone.
        rewrite (IH (b :: rest)); [reflexivity | lia | exact Ht].
Qed.

(** Splitting a string into code points and encoding them again gives the
    string back, surrogate pairs and unpaired surrogates included: the two
    steps around the case mapping of [toUpperCase] lose nothing. *)
Theorem utf16_decode_encode_roundtrip :
  forall s : jsstring,
    wellFormed s = true -> CodePointsToString (StringToCodePoints s) = s.
Proof.
  intros s. now apply (utf16_roundtrip_bounded (List.length s)).
Qed.

Lemma utf16_decode_encode_roundtrip_witness :
  wellFormed [97; 55357; 56832; 56832; 55357; 98] = true
  /\ CodePointsToString (StringToCodePoints [97; 55357; 56832; 56832; 55357; 98])
     = [97; 55357; 56832; 56832; 55357; 98].
Proof.
  split; [reflexivity |].
  apply (utf16_decode_encode_roundtrip [97; 55357; 56832; 56832; 55357; 98]).
  reflexivity.
Defined.

(** A global replace by the empty string leaves no code unit the pattern
    matches, keeps the other code units in their order, and a second pass
    changes nothing; a string without a match comes back unchanged
    whatever the replacement is. *)
Theorem replace_deletes_every_match :
  forall p s,
    Forall (fun c => patternMatches p c = false) (replace p [] s)
    /\ Subsequence (replace p [] s) s
    /\ replace p [] (replace p [] s) = replace p [] s
    /\ (forall replacement,
        Forall (fun c => patternMatches p c = false) s ->
        replace p replacement s = s).
Proof.
  intros p s. rewrite !replace_delete. repeat split.
  - eapply Forall_impl; [| apply Forall_filter_true].
    intros c Hc. cbv beta in Hc. now apply negb_true_iff.
  - apply Subsequence_filter.
  - apply filter_all, Forall_filter_true.
  - intros replacement H. induction H as [| c l Hc _ IH]; [reflexivity |].
    cbn [replace]. now rewrite Hc, IH.
Qed.

Lemma replace_deletes_every_match_witness :
  Forall (fun c => patternMatches re_notDigit c = false) (js "560034")
  /\ replace re_notDigit (js "#") (js "560034") = js "560034".
Proof.
  assert (H : Forall (fun c => patternMatches re_notDigit c = false) (js "560034"))
    by (repeat constructor).
  split; [exact H |].
  apply (replace_deletes_every_match re_notDigit (js "560034")). exact H.
Defined.

(** [slice] returns a contiguous part of the string for any pair of
    indices, negative or out of range; from index 0 to a non-negative end
    it is the prefix of that length, the whole string when the end is not
    below the length. *)
Theorem slice_contiguous_part :
  forall (s : jsstring) (start end_ : Z),
    (exists before after, s = before ++ slice s start end_ ++ after)
    /\ (0 <= end_ ->
        slice s 0 end_ = firstn (Z.to_nat end_) s
        /\ (Z.of_nat (List.length s) <= end_ -> slice s 0 end_ = s))%Z.
Proof.
  intros s start end_. split.
  - unfold slice.
    match goal with |- context [if ?b then _ else _] => destruct b end.
    + exists [], s. reflexivity.
    + match goal with
      | |- context [firstn ?k (skipn ?i s)] =>
          exists (firstn i s), (skipn k (skipn i s))
      end.
      now rewrite firstn_skipn, firstn_skipn.
  - intros Hend. rewrite (slice_prefix s end_ Hend). split; [reflexivity |].
    intros Hlen. apply firstn_all2. lia.
Qed.

Lemma slice_contiguous_part_witness :
  (0 <= 60)%Z /\ (Z.of_nat (List.length (js "Acme Freight Pvt Ltd")) <= 60)%Z
  /\ slice (js "Acme Freight Pvt Ltd") 0 60 = js "Acme Freight Pvt Ltd".
Proof.
  split; [lia | split; [cbn; lia |]].
  apply (slice_contiguous_part (js "Acme Freight Pvt Ltd") 0 60); [lia | cbn; lia].
Defined.

(* ================================================================== *)
(** ** Events and the callbacks they reach *)
(* ================================================================== *)

Section DispatchFacts.

Variable unicodeUpper : N -> list N.
Variable props : CompanySectionProps.

Lemma setField_origin (el : Element) (ev : Event) (g : FieldId) (v : jsstring) :
  In (setField g v) (dispatch unicodeUpper props el ev) ->
  el = Field g /\ g <> pincode
  /\ exists raw, ev = Change raw /\ v = mask unicodeUpper g raw.
Proof.
  intros Hin. destruct ev as [raw |].
  - destruct el as [f | | |]; [destruct f | | |]; cbn [dispatch onChange] in Hin;
      destruct Hin as [Hin | []]; try discriminate Hin;
      injection Hin as <- <-;
      (split; [reflexivity | split; [discriminate | now exists raw]]).
  - destruct el as [f | | |]; [destruct f | | |]; cbn [dispatch onBlur] in Hin;
      try match type of Hin with
          | In _ (if ?b then _ else _) => destruct b
          end;
      try contradiction; destruct Hin as [Hin | []]; discriminate Hin.
Qed.

Lemma setPincode_origin (el : Element) (ev : Event) (v : jsstring) :
  In (setPincode v) (dispatch unicodeUpper props el ev) ->
  el = Field pincode
  /\ exists raw, ev = Change raw /\ v = mask unicodeUpper pincode raw.
Proof.
  intros Hin. destruct ev as [raw |].
  - destruct el as [f | | |]; [destruct f | | |]; cbn [dispatch onChange] in Hin;
      destruct Hin as [Hin | []]; try discriminate Hin;
      injection Hin as <-; (split; [reflexivity | now exists raw]).
  - destruct el as [f | | |]; [destruct f | | |]; cbn [dispatch onBlur] in Hin;
      try match type of Hin with
          | In _ (if ?b then _ else _) => destruct b
          end;
      try contradiction; destruct Hin as [Hin | []]; discriminate Hin.
Qed.

Lemma other_setters_origin (el : Element) (ev : Event) :
  (forall v, In (setState v) (dispatch unicodeUpper props el ev) ->
             el = StateInput /\ ev = Change v)
  /\ (forall v, In (setCity v) (dispatch unicodeUpper props el ev) ->
                el = CityInput /\ ev = Change v)
  /\ (forall m, In (onTransportModeChange m) (dispatch unicodeUpper props el ev) ->
                el = TransportModeSelect /\ m = road).
Proof.
  split; [| split]; intros x Hin; revert Hin;
    (destruct ev as [raw |];
     [ destruct el as [f | | |]; [destruct f | | |]; cbn [dispatch onChange]
     | destruct el as [f | | |]; [destruct f | | |]; cbn [dispatch onBlur];
       try match goal with
           | |- In _ (if ?b then _ else _) -> _ => destruct b
           end ]);
    intros Hin; try contradiction;
    destruct Hin as [Hin | []]; try discriminate Hin;
    injection Hin as <-; split; reflexivity.
Qed.

End DispatchFacts.

(** A callback is reached only from its own input: [setField g] from a
    change on the input of [g] (never for pincode), [setPincode] from a
    change on pincode, [setState] and [setCity] from a change on state and
    city with the raw value, and [onTransportModeChange] from the select,
    with [road] only. *)
Theorem callbacks_come_from_their_own_input :
  forall unicodeUpper props el ev,
    (forall g v, In (setField g v) (dispatch unicodeUpper props el ev) ->
       el = Field g /\ g <> pincode
       /\ exists raw, ev = Change raw /\ v = mask unicodeUpper g raw)
    /\ (forall v, In (setPincode v) (dispatch unicodeUpper props el ev) ->
       el = Field pincode
       /\ exists raw, ev = Change raw /\ v = mask unicodeUpper pincode raw)
    /\ (forall v, In (setState v) (dispatch unicodeUpper props el ev) ->
       el = StateInput /\ ev = Change v)
    /\ (forall v, In (setCity v) (dispatch unicodeUpper props el ev) ->
       el = CityInput /\ ev = Change v)
    /\ (forall m, In (onTransportModeChange m) (dispatch unicodeUpper props el ev) ->
       el = TransportModeSelect /\ m = road).
Proof.
  intros tbl props el ev.
  split; [intros g v; apply setField_origin |].
  split; [intros v; apply setPincode_origin |].
  apply other_setters_origin.
Qed.

Lemma callbacks_come_from_their_own_input_witness :
  In (setField gstin (js "22AAAAA0000A1Z5"))
     (dispatch latin1Upper propsLookupFailed (Field gstin)
        (Change (js "22aaaaa0000a1z5extra")))
  /\ exists raw,
       Change (js "22aaaaa0000a1z5extra") = Change raw
       /\ js "22AAAAA0000A1Z5" = mask latin1Upper gstin raw.
Proof.
  assert (H : In (setField gstin (js "22AAAAA0000A1Z5"))
                (dispatch latin1Upper propsLookupFailed (Field gstin)
                   (Change (js "22aaaaa0000a1z5extra"))))
    by (simpl; left; reflexivity).
  split; [exact H |].
  apply (proj1 (callbacks_come_from_their_own_input latin1Upper propsLookupFailed
                  (Field gstin) (Change (js "22aaaaa0000a1z5extra")))
           gstin (js "22AAAAA0000A1Z5") H).
Defined.

(** Whatever the event, a value handed to [setField] or [setPincode] is
    one its own handler would accept unchanged: it has no code unit the
    field's pattern deletes and fits the field's [maxLength] attribute. *)
Theorem stored_values_are_sanitized :
  forall unicodeUpper props el ev g v,
    In (setField g v) (dispatch unicodeUpper props el ev)
    \/ (g = pincode /\ In (setPincode v) (dispatch unicodeUpper props el ev)) ->
    mask unicodeUpper g v = v
    /\ Forall (fun c => kept g c = true) v
    /\ Spec.withinLength (maxLengthAttr (Field g)) v.
Proof.
  intros tbl props el ev g v H.
  assert (Hraw : exists raw, v = mask tbl g raw).
  { destruct H as [H | [-> H]].
    - apply setField_origin in H as (_ & _ & raw & _ & ->). now exists raw.
    - apply setPincode_origin in H as (_ & raw & _ & ->). now exists raw. }
  destruct Hraw as [raw ->]. rewrite maxLengthAttr_is_slice_bound.
  pose proof (mask_kept tbl g raw) as Hkept.
  pose proof (mask_length tbl g raw) as Hlen.
  split; [now apply mask_fixed_of_kept | now split].
Qed.

Lemma stored_values_are_sanitized_witness :
  In (setPincode (js "110001"))
     (dispatch latin1Upper propsLookupFailed (Field pincode) (Change (js "1100-01 9")))
  /\ mask latin1Upper pincode (js "110001") = js "110001".
Proof.
  assert (H : In (setPincode (js "110001"))
                (dispatch latin1Upper propsLookupFailed (Field pincode)
                   (Change (js "1100-01 9"))))
    by (simpl; left; reflexivity).
  split; [exact H |].
  apply (stored_values_are_sanitized latin1Upper propsLookupFailed
           (Field pincode) (Change (js "1100-01 9")) pincode (js "110001")).
  right. split; [reflexivity | exact H].
Defined.

(** An event makes at most one call and a change event exactly one, also
    when the sanitized value is empty.  A blur makes no call exactly on
    pincode, state, city and the select, and on gstin while its value is
    empty or undefined. *)
Theorem one_call_per_event :
  forall unicodeUpper props el,
    (forall ev, (List.length (dispatch unicodeUpper props el ev) <= 1)%nat)
    /\ (forall raw,
        List.length (dispatch unicodeUpper props el (Change raw)) = 1%nat)
    /\ (dispatch unicodeUpper props el Blur = []
        <-> el = Field pincode \/ el = StateInput \/ el = CityInput
            \/ el = TransportModeSelect
            \/ (el = Field gstin
                /\ truthy (basics (vendorBasics props) gstin) = false)).
Proof.
  intros tbl props el. split; [| split].
  - intros [raw |]; destruct el as [f | | |]; try destruct f; cbn;
      try match goal with
          | |- context [if ?b then _ else _] => destruct b
          end; cbn; lia.
  - intros raw. destruct el as [f | | |]; try destruct f; reflexivity.
  - cbn [dispatch]. destruct el as [f | | |]; [destruct f | | |]; cbn [onBlur];
      try (split; [discriminate |
                   intros [H | [H | [H | [H | [H _]]]]]; discriminate H]);
      try (split; [intros _; tauto | reflexivity]).
    destruct (truthy (basics (vendorBasics props) gstin)).
    + split; [discriminate |].
      intros [H | [H | [H | [H | [_ H]]]]]; discriminate H.
    + split; [intros _; right; right; right; right; now split | reflexivity].
Qed.

(* ================================================================== *)
(** ** What the inputs show *)
(* ================================================================== *)

Lemma inputClass_red (hasError : bool) :
  hasClass (js "border-red-500") (inputClass hasError) = hasError.
Proof. destruct hasError; vm_compute; reflexivity. Qed.

Lemma inputClass_never_blocked (hasError : bool) :
  hasClass (js "cursor-not-allowed") (inputClass hasError) = false
  /\ hasClass (js "bg-white") (inputClass hasError) = true.
Proof. destruct hasError; vm_compute; split; reflexivity. Qed.

Lemma geo_class_not_red (props : CompanySectionProps) (el : Element) :
  el = StateInput \/ el = CityInput ->
  hasClass (js "border-red-500") (className props el) = false.
Proof.
  intros [-> | ->]; cbn [className];
    destruct (negb (isManual (pincodeLookup props))
              && negb (truthy (error (pincodeLookup props))));
    vm_compute; reflexivity.
Qed.

Lemma geo_class_blocked (props : CompanySectionProps) (el : Element) :
  el = StateInput \/ el = CityInput ->
  hasClass (js "cursor-not-allowed") (className props el) = readOnly props el
  /\ hasClass (js "bg-slate-100") (className props el) = readOnly props el
  /\ hasClass (js "bg-white") (className props el) = negb (readOnly props el).
Proof.
  intros [-> | ->]; cbn [className readOnly];
    destruct (negb (isManual (pincodeLookup props))
              && negb (truthy (error (pincodeLookup props))));
    vm_compute; repeat split; reflexivity.
Qed.

Lemma truthy_Some (v : option jsstring) :
  truthy v = true -> exists c rest, v = Some (c :: rest).
Proof. destruct v as [[| c rest] |]; try discriminate. eauto. Qed.

(** An input carries the red border class exactly when a message is
    rendered under it, and the message is then a non-empty string: the
    field's entry of [errors], and the lookup error for pincode.  State,
    city and the select never carry it. *)
Theorem red_border_iff_message :
  forall props el,
    (hasClass (js "border-red-500") (className props el) = true
     <-> exists c rest, errorMessage props el = Some (c :: rest))
    /\ (errorMessage props el = Some [] -> False)
    /\ (el = StateInput \/ el = CityInput \/ el = TransportModeSelect ->
        hasClass (js "border-red-500") (className props el) = false).
Proof.
  intros props el.
  assert (Hinput : forall e : option jsstring,
             (hasClass (js "border-red-500") (inputClass (truthy e)) = true
              <-> exists c rest, (if truthy e then e else None) = Some (c :: rest))
             /\ ((if truthy e then e else None) = Some [] -> False)).
  { intros e. rewrite inputClass_red. destruct (truthy e) eqn:E.
    - apply truthy_Some in E as (c & rest & ->).
      split; [split; eauto | discriminate].
    - split; [split; [discriminate | intros (c & rest & H); discriminate H]
             | discriminate]. }
  destruct el as [f | | |].
  - destruct f; cbn [className errorMessage];
      (split; [apply Hinput | split; [apply Hinput |]]);
      intros [H | [H | H]]; discriminate H.
  - rewrite (geo_class_not_red props StateInput) by now left.
    cbn [errorMessage]. repeat split; try discriminate.
    intros (c & rest & H). discriminate H.
  - rewrite (geo_class_not_red props CityInput) by now right.
    cbn [errorMessage]. repeat split; try discriminate.
    intros (c & rest & H). discriminate H.
  - cbn [errorMessage]. repeat split; try discriminate.
    intros (c & rest & H). discriminate H.
Qed.

(** The look of an input follows its [readOnly] attribute: state and city
    carry the classes [cursor-not-allowed] and [bg-slate-100] exactly
    while they are read-only and [bg-white] exactly while they are not;
    every other input is never read-only and always [bg-white].  The
    "(Manual)" marker is shown only on a writable input. *)
Theorem readOnly_look :
  forall props el,
    hasClass (js "cursor-not-allowed") (className props el) = readOnly props el
    /\ hasClass (js "bg-white") (className props el) = negb (readOnly props el)
    /\ (manualLabel props el = true -> readOnly props el = false).
Proof.
  intros props el. destruct el as [f | | |].
  - assert (H : forall b, hasClass (js "cursor-not-allowed") (inputClass b) = false
                          /\ hasClass (js "bg-white") (inputClass b) = true)
      by apply inputClass_never_blocked.
    destruct f; cbn [className readOnly manualLabel negb];
      (split; [exact (proj1 (H _)) | split; [exact (proj2 (H _)) | discriminate]]).
  - destruct (geo_class_blocked props StateInput) as (H1 & _ & H3); [now left |].
    split; [exact H1 | split; [exact H3 |]].
    cbn [manualLabel readOnly]. intros ->. reflexivity.
  - destruct (geo_class_blocked props CityInput) as (H1 & _ & H3); [now right |].
    split; [exact H1 | split; [exact H3 |]].
    cbn [manualLabel readOnly]. intros ->. reflexivity.
  - cbn [readOnly manualLabel negb]. repeat split; try discriminate;
      vm_compute; reflexivity.
Qed.

Lemma readOnly_look_witness :
  manualLabel propsManualNoError StateInput = true
  /\ readOnly propsManualNoError StateInput = false.
Proof.
  split; [reflexivity |].
  apply (readOnly_look propsManualNoError StateInput). reflexivity.
Defined.

(* ================================================================== *)
(** ** The effect on the options of the select *)
(* ================================================================== *)

Section AttributeFacts.

Lemma getAttribute_setAttribute_same (attrs : list (jsstring * jsstring))
  (name val : jsstring) :
  getAttribute (setAttribute attrs name val) name = Some val.
Proof.
  induction attrs as [| [n v] rest IH]; cbn.
  - now rewrite strictEquals_refl.
  - destruct (strictEquals n name) eqn:E; cbn; now rewrite E.
Qed.

Lemma getAttribute_setAttribute_other (attrs : list (jsstring * jsstring))
  (name val other : jsstring) :
  name <> other ->
  getAttribute (setAttribute attrs name val) other = getAttribute attrs other.
Proof.
  intros Hne. induction attrs as [| [n v] rest IH]; cbn.
  - apply strictEquals_neq in Hne. now rewrite Hne.
  - destruct (strictEquals n name) eqn:E; cbn.
    + apply strictEquals_eq in E. subst n.
      apply strictEquals_neq in Hne. now rewrite Hne.
    + now rewrite IH.
Qed.

Lemma setAttribute_present (attrs : list (jsstring * jsstring))
  (name val : jsstring) :
  getAttribute attrs name = Some val -> setAttribute attrs name val = attrs.
Proof.
  induction attrs as [| [n v] rest IH]; cbn; [discriminate |].
  destruct (strictEquals n name); intros H.
  - now injection H as ->.
  - now rewrite IH.
Qed.

Lemma existsb_strictEquals (token : jsstring) (tokens : list jsstring) :
  existsb (strictEquals token) tokens = true <-> In token tokens.
Proof.
  rewrite existsb_exists. split.
  - intros (t & Hin & Heq). apply strictEquals_eq in Heq. now subst.
  - intros Hin. exists token. split; [exact Hin | apply strictEquals_refl].
Qed.

Lemma classList_add_In (tokens : list jsstring) (token : jsstring) :
  In token (classList_add tokens token).
Proof.
  unfold classList_add. destruct (existsb (strictEquals token) tokens) eqn:E.
  - now apply existsb_strictEquals.
  - apply in_or_app. right. now left.
Qed.

Lemma classList_add_present (tokens : list jsstring) (token : jsstring) :
  In token tokens -> classList_add tokens token = tokens.
Proof.
  intros H. unfold classList_add.
  apply existsb_strictEquals in H. now rewrite H.
Qed.


Lemma disableUnlessRoad_road (o : HTMLOptionElement) :
  value o = js "road" -> disableUnlessRoad o = o.
Proof.
  intros H. unfold disableUnlessRoad.
  apply strictEquals_eq in H. now rewrite H.
Qed.

Lemma disableUnlessRoad_value (o : HTMLOptionElement) :
  value (disableUnlessRoad o) = value o.
Proof.
  unfold disableUnlessRoad.
  now destruct (negb (strictEquals (value o) (js "road"))).
Qed.

Lemma disableUnlessRoad_other (o : HTMLOptionElement) :
  value o <> js "road" ->
  disabled (disableUnlessRoad o) = true
  /\ getAttribute (attributes (disableUnlessRoad o)) (js "aria-disabled")
     = Some (js "true")
  /\ getAttribute (attributes (disableUnlessRoad o)) (js "tabindex")
     = Some (js "-1")
  /\ In (js "fc-option-disabled") (classList (disableUnlessRoad o)).
Proof.
  intros H. unfold disableUnlessRoad.
  apply strictEquals_neq in H. rewrite H. cbn [negb disabled attributes classList].
  split; [reflexivity | split; [| split]].
  - rewrite getAttribute_setAttribute_other by discriminate.
    apply getAttribute_setAttribute_same.
  - apply getAttribute_setAttribute_same.
  - apply classList_add_In.
Qed.

Lemma disableUnlessRoad_idempotent (o : HTMLOptionElement) :
  disableUnlessRoad (disableUnlessRoad o) = disableUnlessRoad o.
Proof.
  destruct (strictEquals (value o) (js "road")) eqn:E.
  - apply strictEquals_eq in E. now rewrite !(disableUnlessRoad_road o E).
  - apply strictEquals_neq in E.
    destruct (disableUnlessRoad_other o E) as (Hd & Haria & Htab & Hcls).
    pose proof (disableUnlessRoad_value o) as Hval.
    destruct (disableUnlessRoad o) as [v d c a].
    cbn [value disabled classList attributes] in *. subst v d.
    unfold disableUnlessRoad. cbn [value disabled classList attributes].
    apply strictEquals_neq in E. rewrite E. cbn [negb].
    rewrite (classList_add_present c _ Hcls).
    rewrite (setAttribute_present a _ _ Haria).
    now rewrite (setAttribute_present a _ _ Htab).
Qed.

End AttributeFacts.

(** After the effect every option whose value is not "road" is disabled,
    carries [aria-disabled="true"] and [tabindex="-1"], and has the class
    [fc-option-disabled], whatever attributes and classes it had before. *)
Theorem effect_disables_other_options :
  forall options options' o,
    disableNonRoadOptions (Some options) = Some options' ->
    In o options' -> value o <> js "road" ->
    disabled o = true
    /\ getAttribute (attributes o) (js "aria-disabled") = Some (js "true")
    /\ getAttribute (attributes o) (js "tabindex") = Some (js "-1")
    /\ In (js "fc-option-disabled") (classList o).
Proof.
  intros options options' o Heff Hin Hval.
  cbn [disableNonRoadOptions] in Heff. injection Heff as <-.
  apply in_map_iff in Hin as (o0 & <- & _).
  rewrite disableUnlessRoad_value in Hval.
  now apply disableUnlessRoad_other.
Qed.

Lemma effect_disables_other_options_witness :
  disableNonRoadOptions (Some renderedOptions)
  = Some (map disableUnlessRoad renderedOptions)
  /\ In (disableUnlessRoad (renderedOption rail)) (map disableUnlessRoad renderedOptions)
  /\ value (disableUnlessRoad (renderedOption rail)) <> js "road"
  /\ disabled (disableUnlessRoad (renderedOption rail)) = true.
Proof.
  assert (Hin : In (disableUnlessRoad (renderedOption rail))
                  (map disableUnlessRoad renderedOptions))
    by (simpl; right; right; left; reflexivity).
  assert (Hval : value (disableUnlessRoad (renderedOption rail)) <> js "road")
    by (vm_compute; discriminate).
  split; [reflexivity | split; [exact Hin | split; [exact Hval |]]].
  apply (effect_disables_other_options renderedOptions
           (map disableUnlessRoad renderedOptions)
           (disableUnlessRoad (renderedOption rail)) eq_refl Hin Hval).
Defined.

(** Running the effect again changes nothing: it can fire on every change
    of [transportMode] without piling up classes or attributes.  With the
    select not mounted it does nothing. *)
Theorem effect_idempotent :
  forall current,
    disableNonRoadOptions (disableNonRoadOptions current)
    = disableNonRoadOptions current
    /\ (current = None <-> disableNonRoadOptions current = None).
Proof.
  intros [options |]; cbn [disableNonRoadOptions]; split;
    try reflexivity; try (split; discriminate).
  f_equal. rewrite map_map. apply map_ext.
  intros o. apply disableUnlessRoad_idempotent.
Qed.



(** The options still enabled after the effect are the enabled options
    with the value "road", unchanged; of the four options the component
    renders, road alone stays enabled. *)
Theorem only_road_stays_enabled :
  forall options,
    filter (fun o => negb (disabled o)) (map disableUnlessRoad options)
    = filter (fun o => negb (disabled o) && strictEquals (value o) (js "road"))
        options
    /\ map value
         (filter (fun o => negb (disabled o)) (map disableUnlessRoad renderedOptions))
       = [js "road"].
Proof.
  intros options. split; [| reflexivity].
  induction options as [| o rest IH]; [reflexivity |].
  cbn [map filter]. rewrite IH. unfold disableUnlessRoad.
  destruct (strictEquals (value o) (js "road")); cbn [negb disabled].
  - now rewrite andb_true_r.
  - now rewrite andb_false_r.
Qed.

(* ================================================================== *)
(** ** Required inputs and validation on blur *)
(* ================================================================== *)

(** Among the inputs with a blur handler, the ones marked [required] are
    the ones whose blur validates whatever the value is; gstin, the one
    input without [required], is the one whose blur can stay silent. *)
Theorem required_iff_blur_always_validates :
  forall f,
    f <> pincode ->
    (required (Field f) = true
     <-> forall props, onBlur props (Field f) = [validateField f]).
Proof.
  intros f Hp. destruct f; cbn [required]; try contradiction;
    try (split; [intros _ props; reflexivity | reflexivity]).
  split; [discriminate |].
  intros H. specialize (H (sampleProps None false None)). discriminate H.
Qed.

Lemma required_iff_blur_always_validates_witness :
  address <> pincode
  /\ required (Field address) = true
  /\ onBlur propsLookupFailed (Field address) = [validateField address].
Proof.
  split; [discriminate | split; [reflexivity |]].
  apply (proj1 (required_iff_blur_always_validates address
                  ltac:(discriminate)) eq_refl).
Defined.

Lemma red_border_iff_message_witness :
  hasClass (js "border-red-500") (className propsLookupFailed (Field pincode)) = true
  /\ exists c rest,
       errorMessage propsLookupFailed (Field pincode) = Some (c :: rest).
Proof.
  assert (H : hasClass (js "border-red-500")
                (className propsLookupFailed (Field pincode)) = true)
    by (vm_compute; reflexivity).
  split; [exact H |].
  apply (proj1 (proj1 (red_border_iff_message propsLookupFailed (Field pincode))) H).
Defined.
